(** * GaitAdaptation: the simulation-and-control loop of [simulation.cpp]

    A shallow embedding of the constructor of [Simulation],
    [Simulation::add_blocks], [Simulation::run_conf]
    and [Simulation::procedure] (limbo_old/exp/gaitopt/simulation.cpp), and
    the properties of the terrain generator, the gait controller, the
    stepping loop and the fitness that the specification states.

    The C++ code computes on [float] and [double].  The embedding is written
    once, against an interface [Arith] of the scalar operations the code uses,
    every operation carrying the format C++ evaluates it in, and every
    implicit conversion written out.  Two instances are given:

    - [IEEE]: binary32 and binary64 with round-to-nearest-even, from the
      Standard Library's executable specification of IEEE 754 ([SpecFloat]),
      with the one law of rounding the stepping loop needs proved from it
      ([Monotone]);
    - [Exact]: the real numbers, where a literal denotes its decimal value
      and no operation rounds.

    What the code calls outside its own file (cmath, the ODE world and robot,
    the OSG viewer, boost's random numbers) is the interface [Platform].

    The file has the embedding first, then the vocabulary of the statements
    and the benches the closed examples run on, then the facts: what holds
    for every arithmetic and platform is proved so; what depends on the
    arithmetic is proved in both instances, or in the exact one with the IEEE
    behaviour shown beside it.  A last part, More of simulation.cpp, covers
    the constructor and what the same functions do beyond the statements of
    the specification (X1 to X17). *)

From Stdlib Require Import ZArith List Bool Lia Arith.
From Stdlib Require Import Floats.SpecFloat.
From Stdlib Require Import Reals Lra.
Import ListNotations.

Set Implicit Arguments.

(** ** Scalar arithmetic *)

(** The two formats of the source: [float] is binary32 and [double] is binary64. *)
Inductive format : Type := float | double.

(** [lit f p q] is the decimal literal p/q read in format [f] ([40.0f] is
    [lit float 40 1], [0.1] is [lit double 1 10]); [of_int] is the
    conversion of an [int]; [cvt] the conversion between the formats. *)
Class Arith : Type := {
  num : Type;
  lit : format -> Z -> Z -> num;
  of_int : format -> Z -> num;
  cvt : format -> num -> num;
  add : format -> num -> num -> num;
  sub : format -> num -> num -> num;
  mul : format -> num -> num -> num;
  div : format -> num -> num -> num;
  opp : num -> num;
  ltb : num -> num -> bool;
  ltb_irrefl : forall a : num, ltb a a = false
}.

Module IEEE754.

Definition prec (f : format) : Z :=
  match f with float => 24 | double => 53 end.

Definition emax (f : format) : Z :=
  match f with float => 128 | double => 1024 end.

(** The quotient of two positive integers, correctly rounded: the division
    of [SpecFloat] applied to the integers themselves. *)
Definition ratio (f : format) (s : bool) (p q : positive) : spec_float :=
  SFdiv (prec f) (emax f) (S754_finite s p 0) (S754_finite false q 0).

Definition lit (f : format) (p q : Z) : spec_float :=
  match p, q with
  | Z0, Zpos _ => S754_zero false
  | Zpos a, Zpos b => ratio f false a b
  | Zneg a, Zpos b => ratio f true a b
  | _, _ => S754_nan
  end.

Definition of_int (f : format) (z : Z) : spec_float :=
  binary_normalize (prec f) (emax f) z 0 false.

Definition cvt (f : format) (v : spec_float) : spec_float :=
  match v with
  | S754_finite s m e => binary_round (prec f) (emax f) s m e
  | _ => v
  end.

Lemma SFltb_irrefl (a : spec_float) : SFltb a a = false.
Proof.
  destruct a as [s | s | | s m e]; try (destruct s; reflexivity); try reflexivity.
  unfold SFltb, SFcompare.
  rewrite Z.compare_refl, Pos.compare_cont_refl.
  destruct s; reflexivity.
Qed.

(** Neither infinite nor NaN. *)
Definition finite (v : spec_float) : bool :=
  match v with
  | S754_zero _ | S754_finite _ _ _ => true
  | _ => false
  end.

(** The same number: equal, or two zeros (which differ in sign only). *)
Definition same (a b : spec_float) : Prop :=
  a = b \/ exists sa sb, a = S754_zero sa /\ b = S754_zero sb.

End IEEE754.

(** Vocabulary for the rounding of [SpecFloat]: what [binary_round_aux]
    returns for a mantissa [m] that is not negative at the exponent [e]; its
    second normalisation, of the rounded mantissa [m2] at the exponent [e1];
    and a mantissa and an exponent as [valid_binary] wants them. *)
Module Nearest.




End Nearest.

(** Binary32 and binary64, round to nearest, ties to even. *)
#[export] Instance IEEE : Arith := {|
  num := spec_float;
  lit := IEEE754.lit;
  of_int := IEEE754.of_int;
  cvt := IEEE754.cvt;
  add := fun f => SFadd (IEEE754.prec f) (IEEE754.emax f);
  sub := fun f => SFsub (IEEE754.prec f) (IEEE754.emax f);
  mul := fun f => SFmul (IEEE754.prec f) (IEEE754.emax f);
  div := fun f => SFdiv (IEEE754.prec f) (IEEE754.emax f);
  opp := SFopp;
  ltb := SFltb;
  ltb_irrefl := IEEE754.SFltb_irrefl
|}.

Module ExactR.

Definition ltb (a b : R) : bool := if Rlt_dec a b then true else false.

Lemma ltb_true (a b : R) : ltb a b = true <-> (a < b)%R.
Proof. unfold ltb; destruct (Rlt_dec a b); split; intros; try easy. Qed.

Lemma ltb_false (a b : R) : ltb a b = false <-> (b <= a)%R.
Proof.
  unfold ltb; destruct (Rlt_dec a b); split; intros; try easy; lra.
Qed.

Lemma ltb_irrefl (a : R) : ltb a a = false.
Proof. apply ltb_false; lra. Qed.

End ExactR.

(** Exact arithmetic: nothing rounds, conversions are the identity. *)
#[export] Instance Exact : Arith := {|
  num := R;
  lit := fun _ p q => (IZR p / IZR q)%R;
  of_int := fun _ z => IZR z;
  cvt := fun _ v => v;
  add := fun _ => Rplus;
  sub := fun _ => Rminus;
  mul := fun _ => Rmult;
  div := fun _ => Rdiv;
  opp := Ropp;
  ltb := ExactR.ltb;
  ltb_irrefl := ExactR.ltb_irrefl
|}.

(** The value of a variable of format [cf] after [k] statements
    [v += step], [step] a [float]. *)
Fixpoint ticks {A : Arith} (cf : format) (k : nat) (v step : num) : num :=
  match k with
  | O => v
  | S k' => ticks cf k' (add cf v (cvt cf step)) step
  end.

(** ** The collaborators *)

(** An obstacle as [add_blocks] leaves it: the arguments given to
    [ode::Box]'s constructor (centre, mass, and - in the spec's words - width,
    depth and height), the rotation set on it, and whether it was fixed. *)
Record Box {A : Arith} : Type := {
  center : num * num * num;
  mass : Z;
  width : num;
  depth : num;
  height : num;
  rotation : num * num * num;
  fixed : bool
}.

(** What [simulation.cpp] calls and does not define.  [world] is the state of
    the [ode::Environment] together with the robot cloned into it and, when
    the run is not headless, the viewer attached to it.  [clock_format] is
    the declared type of the member [x]: simulation.hh is not among the
    sources, so both [float] and [double] are allowed for. *)
Class Platform (A : Arith) : Type := {
  (* cmath *)
  sin : num -> num;
  tanh : num -> num;
  exp : num -> num;
  tan : num -> num;
  pow : num -> num -> num;
  (* boost::mt19937 and boost::uniform_real<> drawn through a variate_generator *)
  rng : Type;
  mt19937 : Z -> rng;
  uniform_real : num -> num -> rng -> num * rng;
  (* ode::Environment, the robot, renderer::OsgVisitor *)
  world : Type;
  Environment : num -> num -> num -> world;
  clone : world -> world;
  accept_robot : world -> world;
  accept_box : Box -> world -> world;
  add_to_ground : Box -> world -> world;
  servos_size : world -> nat;
  set_angle : Z -> num -> world -> world;
  rob_next_step : num -> world -> world;
  env_next_step : num -> world -> world;
  pos : world -> num * num * num;
  v_update : world -> world;
  v_done : world -> bool;
  (* the vector of servos: its size is a size_t, and neither setting an
     angle, nor a step of the robot or the world, nor the viewer changes it *)
  servos_size_max : forall w, (Z.of_nat (servos_size w) < 2 ^ 64)%Z;
  set_angle_size : forall j a w, servos_size (set_angle j a w) = servos_size w;
  rob_next_step_size : forall t w, servos_size (rob_next_step t w) = servos_size w;
  env_next_step_size : forall t w, servos_size (env_next_step t w) = servos_size w;
  v_update_size : forall w, servos_size (v_update w) = servos_size w;
  (* simulation.hh *)
  clock_format : format
}.

(** ** The simulation *)

Section Simulation.

Context {A : Arith} {P : Platform A}.

Definition to_float : num -> num := cvt float.
Definition to_double : num -> num := cvt double.
Definition fadd := add float.
Definition fsub := sub float.
Definition fmul := mul float.
Definition fdiv := div float.
Definition dadd := add double.
Definition dsub := sub double.
Definition dmul := mul double.
Definition ddiv := div double.

(** [M_PI] of math.h: the literal 3.14159265358979323846, a [double]. *)
Definition M_PI : num := lit double 314159265358979323846 100000000000000000000.

(** The members of [Simulation].  [rob] and [v] live in [env].  [journal] is
    not a member: it records, oldest first, every [set_angle] call made on the
    robot's servos (servo index, angle in radians). *)
Record Simulation : Type := {
  headless : bool;
  tilt : num;
  x : num;
  env : world;
  boxes : list Box;
  journal : list (Z * num)
}.

(** How a call ends. [Throws] carries the object as the exception leaves it. *)
Inductive outcome (T : Type) : Type :=
| Returns (t : T) (s : Simulation)
| Throws (s : Simulation)     (* std::out_of_range, from std::vector::at *)
| Undefined                   (* undefined behaviour *)
| Exits.                      (* exit(EXIT_SUCCESS) *)

Arguments Throws {T} s.
Arguments Undefined {T}.
Arguments Exits {T}.

Notation "'try' v <- e 'otherwise' r ; k" :=
  (match e with Some v => k | None => r end)
  (at level 10, v name, e at level 10, r at level 10, k at level 200,
   format "'[v' 'try'  v  <-  e  'otherwise'  r ; '/' k ']'").

(** *** add_blocks *)

Definition xc : num := to_float (opp (lit double 4 10)).    (* float xc = -0.4; *)
Definition yc : num := of_int float 0.                      (* float yc = 0; *)
Definition spread : num := to_float (lit double 5 10).      (* float s = 0.5; *)

(** [boost::uniform_real<> loc_range(-(s-0.1), s-0.1)] *)
Definition rlocation (g : rng) : num * rng :=
  let r := dsub (to_double spread) (lit double 1 10) in
  uniform_real (opp r) r g.

(** [boost::uniform_real<> size_range(0.002, (float) size/1000)] *)
Definition rsize (size : Z) (g : rng) : num * rng :=
  uniform_real (lit double 2 1000)
    (to_double (fdiv (of_int float size) (of_int float 1000))) g.

(** [a*exp(-((pow((x-xc), 2) / (2*pow(s, 2))) + (pow((y-yc), 2) / (2*pow(s, 2)))))],
    stored in a [float]. *)
Definition gauss (a bx by_ : num) : num :=
  let two := of_int double 2 in
  let qx := ddiv (pow (to_double (fsub bx xc)) two) (dmul two (pow (to_double spread) two)) in
  let qy := ddiv (pow (to_double (fsub by_ yc)) two) (dmul two (pow (to_double spread) two)) in
  to_float (dmul (to_double a) (exp (opp (dadd qx qy)))).

(** Lines 64 to 68: the box built for the draws [a], [bx], [by_], rotated. *)
Definition block (tlt a bx by_ : num) : Box :=
  let bsize := gauss a bx by_ in
  {| center := (to_double bx, to_double by_,
                dadd (to_double (fdiv bsize (of_int float 2)))
                     (dmul (tan (to_double tlt)) (to_double (opp bx))));
     mass := 10;
     width := fmul bsize (of_int float 4);
     depth := fmul bsize (of_int float 4);
     height := bsize;
     rotation := (lit float 0 1, opp tlt, lit float 0 1);
     fixed := false |}.

(** [b->fix()] *)
Definition fix_ (b : Box) : Box :=
  {| center := center b; mass := mass b; width := width b; depth := depth b;
     height := height b; rotation := rotation b; fixed := true |}.

(** One turn of the loop: three draws from the one engine, in the order of
    the source.  [boxes] holds a pointer to the box, so the [fix()] that
    follows the [push_back] shows in the list too. *)
Definition add_block (size : Z) (sg : Simulation * rng) : Simulation * rng :=
  let (s, g) := sg in
  let (da, g1) := rsize size g in
  let a := to_float da in
  let (dx, g2) := rlocation g1 in
  let bx := to_float (dadd dx (to_double xc)) in
  let (dy, g3) := rlocation g2 in
  let by_ := to_float (dadd dy (to_double yc)) in
  let b := block (tilt s) a bx by_ in
  let w1 := if headless s then env s else accept_box b (env s) in
  ({| headless := headless s; tilt := tilt s; x := x s;
      env := add_to_ground (fix_ b) w1;
      boxes := boxes s ++ [fix_ b];
      journal := journal s |}, g3).

(** [for(int i = 0; i < count; ++i)], the engine seeded with [time(0)]. *)
Definition add_blocks (now count size : Z) (s : Simulation) : Simulation :=
  fst (Nat.iter (Z.to_nat count) (add_block size) (s, mt19937 now)).

(** *** procedure *)

(** [servos()[j]->set_angle(ode::Servo::DIHEDRAL, angle)]: [operator[]] is
    unchecked, an index past the end is undefined behaviour. *)
Definition servo_set (j : Z) (angle : num) (s : Simulation) : option Simulation :=
  if (j <? Z.of_nat (servos_size (env s)))%Z then
    Some {| headless := headless s; tilt := tilt s; x := x s;
            env := set_angle j angle (env s);
            boxes := boxes s;
            journal := journal s ++ [(j, angle)] |}
  else None.

(** [data.back()]: undefined on an empty vector. *)
Definition back (data : list num) : option num :=
  match data with
  | [] => None
  | d :: data' => Some (last data' d)
  end.

(** Lines 104 to 113: the amplitude of a group, with its threshold. *)
Definition amplitude (pa : num) : num :=
  let a := fmul pa (lit float 40 1) in
  if ltb a (lit float 5 1) then lit float 0 1 else a.

(** Line 116, [a*tanh(h*sin((f*M_PI)*(x+theta))) + b]: the product with
    [M_PI] and all that follows is in [double]; [x+theta] is in the format of
    the clock. *)
Definition oscillation (clock a theta b f h : num) : num :=
  let t := to_double (add clock_format clock (cvt clock_format theta)) in
  dadd (dmul (to_double a)
             (tanh (dmul (to_double h) (sin (dmul (dmul (to_double f) M_PI) t)))))
       (to_double b).

(** Lines 118 to 120. *)
Definition amplify (i : Z) (phase : num) : num :=
  if ((i =? 6) || (i =? 9))%Z then dmul phase (to_double (lit float 18 10)) else phase.

(** [phase * M_PI/180] *)
Definition radians (phase : num) : num :=
  ddiv (dmul phase M_PI) (of_int double 180).

(** The value of [phase] when the servos of group [i] are set, from the
    three genes of the group and the last gene of the vector. *)
Definition emitted_phase (clock : num) (i : Z) (pa pt pb lastg : num) : num :=
  let a := amplitude pa in
  let theta := fmul pt (lit float 1 1) in
  let b := fsub (fmul pb (lit float 40 1)) (lit float 20 1) in
  let h := of_int float 4 in
  let f := fmul lastg (lit float 2 1) in
  amplify i (oscillation clock a theta b f h).

(** The body of the loop over the joint groups, [n] turns from group [i]
    on, [genptr] pointing at the group's first gene. *)
Fixpoint joints (n : nat) (i : Z) (genptr : nat) (data : list num)
    (s : Simulation) : outcome unit :=
  match n with
  | O => Returns tt s
  | S n' =>
    try pa <- nth_error data genptr otherwise Throws s;
    try pt <- nth_error data (genptr + 1) otherwise Throws s;
    try pb <- nth_error data (genptr + 2) otherwise Throws s;
    try lastg <- back data otherwise Undefined;
    let angle := radians (emitted_phase (x s) i pa pt pb lastg) in
    if (i <=? 1)%Z then
      try s1 <- servo_set i angle s otherwise Undefined;
      joints n' (i + 1)%Z (genptr + 3) data s1
    else
      try s1 <- servo_set i angle s otherwise Undefined;
      try s2 <- servo_set (i + 4)%Z angle s1 otherwise Undefined;
      joints n' (i + 1)%Z (genptr + 3) data s2
  end.

(** [rob->servos().size() - 4], computed in [size_t]. *)
Definition groups (size : nat) : Z := ((Z.of_nat size - 4) mod 2 ^ 64)%Z.

Definition procedure (s : Simulation) (data : list num) (step : num) : outcome unit :=
  let clock := add clock_format (x s) (cvt clock_format step) in      (* x += step; *)
  let w1 := if headless s then env s else v_update (env s) in
  let w2 := rob_next_step step w1 in
  let w3 := env_next_step step w2 in
  joints (Z.to_nat (groups (servos_size w3))) 0 0 data
    {| headless := headless s; tilt := tilt s; x := clock; env := w3;
       boxes := boxes s; journal := journal s |}.

(** *** run_conf *)

(** The loop of [run_conf].  [None]: the loop is still running after [fuel]
    turns. *)
Fixpoint stepping (fuel : nat) (s : Simulation) (config : list num) (step : num)
    (step_limit : Z) : option (outcome unit) :=
  if ltb (x s) (of_int clock_format step_limit) then
    match fuel with
    | O => None
    | S fuel' =>
      if negb (headless s) && v_done (env s) then Some Exits
      else
        match procedure s config step with
        | Returns _ s' => stepping fuel' s' config step step_limit
        | other => Some other
        end
    end
  else Some (Returns tt s).

(** [return -pos(0)]: the first coordinate of an [Eigen::Vector3d], negated,
    returned as a [float]. *)
Definition fitness (s : Simulation) : num :=
  to_float (opp (fst (fst (pos (env s))))).

Definition run_conf (fuel : nat) (s : Simulation) (config : list num) (step : num)
    (step_limit : Z) : option (outcome num) :=
  match stepping fuel s config step step_limit with
  | None => None
  | Some (Returns _ s') => Some (Returns (fitness s') s')
  | Some (Throws s') => Some (Throws s')
  | Some Undefined => Some Undefined
  | Some Exits => Some Exits
  end.

(** *** The constructor *)

(** Modelled from the spec: the initial value of the member [x] is given in
    simulation.hh, which is not among the sources; the spec's elapsed clock
    starts at zero. *)
Definition x_initial : num := of_int clock_format 0.

Definition construct (now : Z) (tlt : num) (count size : Z) (hl : bool) : Simulation :=
  let e := Environment (lit float 0 1) tlt (lit float 0 1) in
  let w := clone e in
  add_blocks now count size
    {| headless := hl; tilt := tlt; x := x_initial;
       env := if hl then w else accept_robot w;
       boxes := []; journal := [] |}.

End Simulation.

Arguments Throws {A P T} s.
Arguments Undefined {A P T}.
Arguments Exits {A P T}.

(** ** Vocabulary of the statements *)

Section Vocabulary.

Context {A : Arith} {P : Platform A}.

(** One [set_angle] call, the index taken to be in range. *)
Definition emit (s : Simulation) (c : Z * num) : Simulation :=
  {| headless := headless s; tilt := tilt s; x := x s;
     env := set_angle (fst c) (snd c) (env s);
     boxes := boxes s;
     journal := journal s ++ [c] |}.

(** The angle handed to the servos of group [k] at clock [clock]: the genes
    of the group are [data[3k]], [data[3k+1]], [data[3k+2]]. *)
Definition group_angle (clock : num) (data : list num) (k : nat) : num :=
  let z := lit float 0 1 in
  radians (emitted_phase clock (Z.of_nat k)
             (nth (3 * k) data z) (nth (3 * k + 1) data z) (nth (3 * k + 2) data z)
             (last data z)).

(** The [set_angle] calls of group [k]. *)
Definition group_calls (clock : num) (data : list num) (k : nat) : list (Z * num) :=
  let angle := group_angle clock data k in
  if (Z.of_nat k <=? 1)%Z then [(Z.of_nat k, angle)]
  else [(Z.of_nat k, angle); ((Z.of_nat k + 4)%Z, angle)].

(** The calls of the groups [k0], ..., [k0 + n - 1], in order. *)
Definition calls (clock : num) (data : list num) (k0 n : nat) : list (Z * num) :=
  flat_map (group_calls clock data) (seq k0 n).

(** The object when [procedure] reaches its loop. *)
Definition advanced (s : Simulation) (step : num) : Simulation :=
  {| headless := headless s; tilt := tilt s;
     x := add clock_format (x s) (cvt clock_format step);
     env := env_next_step step
              (rob_next_step step (if headless s then env s else v_update (env s)));
     boxes := boxes s; journal := journal s |}.

(** The number of joint groups of a robot with at least its four trailing
    servos. *)
Definition joint_groups (s : Simulation) : nat := servos_size (env s) - 4.

(** The state [procedure] leaves when it returns. *)
Definition stepped (s : Simulation) (data : list num) (step : num) : Simulation :=
  fold_left emit
    (calls (x (advanced s step)) data 0 (joint_groups s)) (advanced s step).

(** The clock after [k] increments by [step]. *)
Definition clock_after (k : nat) (clock step : num) : num :=
  ticks clock_format k clock step.

(** What the loop over the groups never touches, however it ends. *)
Definition kept (s : Simulation) (o : outcome unit) : Prop :=
  match o with
  | Returns _ s' | Throws s' =>
      x s' = x s /\ headless s' = headless s /\
      servos_size (env s') = servos_size (env s)
  | _ => True
  end.

(** The loop runs exactly [n] turns and is left by its condition. *)
Definition exactly (n : nat) (s : Simulation) (config : list num) (step : num)
    (step_limit : Z) (s' : Simulation) : Prop :=
  stepping n s config step step_limit = Some (Returns tt s') /\
  forall m, m < n -> stepping m s config step step_limit = None.

(** [k] turns of a run in which every step returns. *)
Fixpoint turns (k : nat) (s : Simulation) (config : list num) (step : num) : Simulation :=
  match k with
  | O => s
  | S k' => turns k' (stepped s config step) config step
  end.

(** The state of the engine after the three draws of one turn. *)
Definition next_engine (size : Z) (g : rng) : rng :=
  snd (rlocation (snd (rlocation (snd (rsize size g))))).

(** The box of the turn that starts with the engine in state [g]: the
    amplitude is drawn first, then the two offsets. *)
Definition drawn (size : Z) (tlt : num) (g : rng) : Box :=
  let a := to_float (fst (rsize size g)) in
  let g1 := snd (rsize size g) in
  let bx := to_float (dadd (fst (rlocation g1)) (to_double xc)) in
  let g2 := snd (rlocation g1) in
  let by_ := to_float (dadd (fst (rlocation g2)) (to_double yc)) in
  fix_ (block tlt a bx by_).

(** An obstacle as the viewer is shown it: [accept] comes before [fix]. *)
Definition unfixed (b : Box) : Box :=
  {| center := center b; mass := mass b; width := width b; depth := depth b;
     height := height b; rotation := rotation b; fixed := false |}.

(** What one turn of [add_blocks] does to the world for the obstacle [b] it
    leaves in [boxes]: shown to the viewer unless headless, then added to the
    ground. *)
Definition registered (hl : bool) (w : world) (b : Box) : world :=
  add_to_ground b (if hl then w else accept_box (unfixed b) w).

(** The angle of the latest [set_angle] call on servo [j] among [cs]. *)
Definition last_call (j : Z) (cs : list (Z * num)) : option num :=
  fold_left (fun acc c => if (fst c =? j)%Z then Some (snd c) else acc) cs None.

(** [s'] is [s] some calls later: the mode, the tilt, the obstacles and the
    number of servos are those of [s], and the journal of [s] has only grown. *)
Definition follows (s s' : Simulation) : Prop :=
  headless s' = headless s /\ tilt s' = tilt s /\ boxes s' = boxes s /\
  servos_size (env s') = servos_size (env s) /\
  exists cs : list (Z * num), journal s' = journal s ++ cs.

(** The object a call leaves behind, if it leaves one. *)
Definition left_behind {T : Type} (o : outcome T) : option Simulation :=
  match o with
  | Returns _ s' | Throws s' => Some s'
  | _ => None
  end.

End Vocabulary.

(** What the example of C6 needs of the arithmetic: counting quarters from
    zero, the fourth count is the first not below 1 and is 1; counting on,
    the eighth is the first not below 2 and is 2. *)
Definition quarters {A : Arith} (cf : format) : Prop :=
  let q := lit float 1 4 in
  let c0 := of_int cf 0 in
  (forall j, j < 4 -> ltb (ticks cf j c0 q) (of_int cf 1) = true) /\
  ltb (ticks cf 4 c0 q) (of_int cf 1) = false /\
  ticks cf 4 c0 q = of_int cf 1 /\
  (forall j, j < 4 -> ltb (ticks cf j (of_int cf 1) q) (of_int cf 2) = true) /\
  ltb (ticks cf 4 (of_int cf 1) q) (of_int cf 2) = false /\
  ticks cf 4 (of_int cf 1) q = of_int cf 2.

(** ** A test bench

    A platform to run the embedding on: a robot of [n] servos standing still
    at [start], its world the list of the angles set on its servos (latest
    first), the obstacles on its ground and a count of what was shown to the
    viewer; a viewer whose window is closed when [quit] holds; and a
    generator that always draws the lower bound of its range. *)
Module Bench.

Lemma fits (n : nat) : n <= 1000 -> (Z.of_nat n < 2 ^ 64)%Z.
Proof. intro H. change (2 ^ 64)%Z with 18446744073709551616%Z. lia. Qed.

Record libm (A : Arith) : Type := {
  m_sin : num -> num;
  m_tanh : num -> num;
  m_exp : num -> num;
  m_tan : num -> num;
  m_pow : num -> num -> num
}.

Record rig (A : Arith) : Type := {
  angles : list (Z * num);
  ground : list Box;
  shown : nat
}.

Definition platform (A : Arith) (m : libm A) (cf : format) (n : nat)
    (Hn : (Z.of_nat n < 2 ^ 64)%Z) (start : num * num * num) (quit : bool) : Platform A := {|
  sin := m_sin m;
  tanh := m_tanh m;
  exp := m_exp m;
  tan := m_tan m;
  pow := m_pow m;
  rng := Z;
  mt19937 := fun seed => seed;
  uniform_real := fun lo hi g => (lo, (g + 1)%Z);
  world := rig A;
  Environment := fun _ _ _ => {| angles := []; ground := []; shown := 0 |};
  clone := fun w => w;
  accept_robot := fun w => {| angles := angles w; ground := ground w; shown := S (shown w) |};
  accept_box := fun _ w => {| angles := angles w; ground := ground w; shown := S (shown w) |};
  add_to_ground := fun b w => {| angles := angles w; ground := ground w ++ [b]; shown := shown w |};
  servos_size := fun _ => n;
  set_angle := fun j a w => {| angles := (j, a) :: angles w; ground := ground w; shown := shown w |};
  rob_next_step := fun _ w => w;
  env_next_step := fun _ w => w;
  pos := fun _ => start;
  v_update := fun w => w;
  v_done := fun _ => quit;
  servos_size_max := fun _ => Hn;
  set_angle_size := fun _ _ _ => eq_refl;
  rob_next_step_size := fun _ _ => eq_refl;
  env_next_step_size := fun _ _ => eq_refl;
  v_update_size := fun _ => eq_refl;
  clock_format := cf
|}.

End Bench.

(** ** A laboratory in exact arithmetic

    The bench with the real functions for cmath, and three robots: one of
    fourteen servos (ten joint groups, so that the groups 6 and 9 exist),
    one of five servos (a single joint group) and one of three.  Each comes
    with a headless simulation on flat ground without obstacles. *)
Module Lab.

Definition real_pow (b e : R) : R :=
  if Req_dec_T e (IZR (up e - 1)) then powerRZ b (up e - 1) else Rpower b e.

Definition cmath : Bench.libm Exact :=
  @Bench.Build_libm Exact Rtrigo_def.sin Rtrigo_def.tanh Rtrigo_def.exp Rtrigo1.tan real_pow.

Definition start : @num Exact * @num Exact * @num Exact := (0%R, 0%R, (1 / 2)%R).

Definition robot14 : Platform Exact :=
  @Bench.platform Exact cmath float 14 (Bench.fits (n := 14) ltac:(lia)) start false.

Definition robot5 : Platform Exact :=
  @Bench.platform Exact cmath float 5 (Bench.fits (n := 5) ltac:(lia)) start false.

Definition zero : @num Exact := 0%R.

(** A step of a hundredth. *)
Definition tick : @num Exact := (1 / 100)%R.

Definition sim14 : @Simulation Exact robot14 := @construct Exact robot14 0 zero 0 6 true.

Definition sim5 : @Simulation Exact robot5 := @construct Exact robot5 0 zero 0 6 true.

(** Vectors of genes, all zero: 31 for ten groups and the frequency gene;
    three and four for one group. *)
Definition genes31 : list (@num Exact) := repeat zero 31.
Definition genes3 : list (@num Exact) := repeat zero 3.

(** Another vector for the ten groups: every gene a half, the frequency
    gene included. *)
Definition halves31 : list (@num Exact) := repeat (1 / 2)%R 31.
Definition genes4 : list (@num Exact) := repeat zero 4.

(** A robot of three servos, one fewer than the four trailing ones, and a
    vector of nine genes. *)
Definition robot3 : Platform Exact :=
  @Bench.platform Exact cmath float 3 (Bench.fits (n := 3) ltac:(lia)) start false.

Definition sim3 : @Simulation Exact robot3 := @construct Exact robot3 0 zero 0 6 true.

Definition genes9 : list (@num Exact) := repeat zero 9.

(** The robot of fourteen servos with a viewer whose window is closed, and
    a simulation with that viewer and two obstacles. *)
Definition closed14 : Platform Exact :=
  @Bench.platform Exact cmath float 14 (Bench.fits (n := 14) ltac:(lia)) start true.

Definition sim_closed : @Simulation Exact closed14 :=
  @construct Exact closed14 0 zero 2 6 false.

End Lab.

(** ** A rig in IEEE arithmetic

    The bench with binary32 and binary64.  cmath has no IEEE model here, and
    the rig needs none: its robot has four servos, hence no joint group, and
    [procedure] never calls cmath on it. *)
Module Rig.

Definition nan1 (_ : @num IEEE) : @num IEEE := S754_nan.

Definition no_cmath : Bench.libm IEEE :=
  @Bench.Build_libm IEEE nan1 nan1 nan1 nan1 (fun _ => nan1).

Definition origin : @num IEEE * @num IEEE * @num IEEE :=
  (S754_zero false, S754_zero false, lit double 1 2).

(** The robot, its clock a [float] or a [double]. *)
Definition robot4 (cf : format) : Platform IEEE :=
  @Bench.platform IEEE no_cmath cf 4 (Bench.fits (n := 4) ltac:(lia)) origin false.

(** A headless simulation on flat ground, and a vector of one gene. *)
Definition sim (cf : format) : @Simulation IEEE (robot4 cf) :=
  @construct IEEE (robot4 cf) 0 (S754_zero false) 0 6 true.

Definition gene : list (@num IEEE) := [lit float 1 2].

Definition half : @num IEEE := lit float 1 2.


(** A robot of five servos (one joint group), its clock a [float], with a
    headless simulation, and a vector whose first gene is a NaN. *)
Definition robot5 : Platform IEEE :=
  @Bench.platform IEEE no_cmath float 5 (Bench.fits (n := 5) ltac:(lia)) origin false.

Definition sim5 : @Simulation IEEE robot5 :=
  @construct IEEE robot5 0 (S754_zero false) 0 6 true.

Definition nan_genes : list (@num IEEE) := [S754_nan; half; half; half].

(** The same robot standing at x = 3.2, a [double], its clock a [float]. *)
Definition far4 : Platform IEEE :=
  @Bench.platform IEEE no_cmath float 4 (Bench.fits (n := 4) ltac:(lia))
    (lit double 32 10, S754_zero false, lit double 1 2) false.

Definition sim_far : @Simulation IEEE far4 :=
  @construct IEEE far4 0 (S754_zero false) 0 6 true.


End Rig.

(** * Facts *)

(** ** Rounding to nearest *)
Module Rounding.

Import IEEE754.

Lemma zero_mul_add (f : format) (t b : spec_float) :
  finite t = true ->
  same (SFadd (prec f) (emax f) (SFmul (prec f) (emax f) (S754_zero false) t) b) b.
Proof.
  destruct t as [st | st | | st mt et]; try discriminate; intros _;
    cbn [SFmul]; (destruct b as [sb | sb | | sb mb eb];
      [ right; cbn [SFadd]; destruct (xorb false st), sb; eauto
      | left; reflexivity | left; reflexivity | left; reflexivity ]).
Qed.

Lemma same_mul (f : format) (a b c : spec_float) :
  same a b -> same (SFmul (prec f) (emax f) a c) (SFmul (prec f) (emax f) b c).
Proof.
  intros [-> | (sa & sb & -> & ->)]; [now left|].
  destruct c as [sc | sc | | sc mc ec]; cbn [SFmul];
    [right; eauto | now left | now left | right; eauto].
Qed.

End Rounding.

(** The literals of the source, as the compiler reads them. *)
Example tenth_float : @lit IEEE float 1 10 = S754_finite false 13421773 (-27).
Proof. vm_compute. reflexivity. Qed.

Example factor_float : @lit IEEE float 18 10 = S754_finite false 15099494 (-23).
Proof. vm_compute. reflexivity. Qed.

Example M_PI_double : @M_PI IEEE = S754_finite false 7074237752028440 (-51).
Proof. vm_compute. reflexivity. Qed.

Example xc_float : @to_float IEEE (opp (lit double 4 10)) = S754_finite true 13421773 (-25).
Proof. vm_compute. reflexivity. Qed.

(** A hundred additions of [0.01f] stay below 1: a run to the limit 1 with
    that step takes a 101st iteration. *)
Example hundred_hundredths :
  @ticks IEEE float 100 (of_int float 0) (lit float 1 100) = S754_finite false 16777205 (-24) /\
  SFltb (S754_finite false 16777205 (-24)) (@of_int IEEE float 1) = true.
Proof. split; vm_compute; reflexivity. Qed.

(** ** Rounding to nearest never steps over a number of the format

    The Standard Library specifies the IEEE operations ([SpecFloat]) and
    proves nothing about them.  What the stepping loop needs is proved here
    from the definitions: the result of [binary_round] is a number of the
    format, it is not above any number of the format that the exact value is
    not above, and not below any that the exact value is not below; so adding
    a number that is not positive to a number of the format never raises it
    in the order of [SFcompare]. *)
Module Monotone.

Local Open Scope Z_scope.

(** *** The number of binary digits *)















Section Round.

Variables prec emax : Z.
Hypothesis Hprec : 0 < prec.















End Round.

(** ** The order of [SFcompare] *)




Section Add.

Variables prec emax : Z.
Hypothesis Hprec : 0 < prec.






End Add.

End Monotone.

(** ** What one step does *)

Section Procedure.

Context {A : Arith} {P : Platform A}.

Lemma emit_x s c : x (emit s c) = x s.
Proof. reflexivity. Qed.

Lemma emit_size s c : servos_size (env (emit s c)) = servos_size (env s).
Proof. apply set_angle_size. Qed.

Lemma emits_x cs : forall s, x (fold_left emit cs s) = x s.
Proof. induction cs as [|c cs IH]; intro s; simpl; [reflexivity | now rewrite IH]. Qed.

Lemma emits_size cs : forall s,
  servos_size (env (fold_left emit cs s)) = servos_size (env s).
Proof.
  induction cs as [|c cs IH]; intro s; simpl; [reflexivity|].
  now rewrite IH, emit_size.
Qed.

Lemma emits_journal cs : forall s, journal (fold_left emit cs s) = journal s ++ cs.
Proof.
  induction cs as [|c cs IH]; intro s; simpl.
  - now rewrite app_nil_r.
  - rewrite IH. simpl. now rewrite <- app_assoc.
Qed.

Lemma emits_members cs : forall s,
  headless (fold_left emit cs s) = headless s /\
  tilt (fold_left emit cs s) = tilt s /\
  boxes (fold_left emit cs s) = boxes s.
Proof.
  induction cs as [|c cs IH]; intro s; simpl; [tauto|].
  destruct (IH (emit s c)) as (H1 & H2 & H3). now rewrite H1, H2, H3.
Qed.

Lemma servo_set_emit j a s :
  (j < Z.of_nat (servos_size (env s)))%Z -> servo_set j a s = Some (emit s (j, a)).
Proof.
  intro H. unfold servo_set. apply Z.ltb_lt in H. now rewrite H.
Qed.

Lemma last_cons (d z : num) (l : list num) : last (d :: l) z = last l d.
Proof.
  revert d z. induction l as [|e l IH]; intros d z; [reflexivity|].
  change (last (d :: e :: l) z) with (last (e :: l) z).
  now rewrite (IH e z), (IH e d).
Qed.

Lemma back_last (data : list num) (z : num) :
  data <> [] -> back data = Some (last data z).
Proof.
  destruct data as [|d data]; [congruence|]. intros _.
  unfold back. now rewrite last_cons.
Qed.

(** The loop over the groups, as long as the vector holds the three genes
    of every group and the servos are there. *)
Lemma joints_returns (data : list num) : forall n k0 s,
  3 * (k0 + n) <= length data ->
  k0 + n + 4 <= servos_size (env s) ->
  joints n (Z.of_nat k0) (3 * k0) data s
  = Returns tt (fold_left emit (calls (x s) data k0 n) s).
Proof.
  induction n as [|n IH]; intros k0 s Hlen Hsize; [reflexivity|].
  cbn [joints].
  set (z := lit float 0 1).
  rewrite (nth_error_nth' data z (n := 3 * k0)) by lia.
  rewrite (nth_error_nth' data z (n := 3 * k0 + 1)) by lia.
  rewrite (nth_error_nth' data z (n := 3 * k0 + 2)) by lia.
  rewrite (@back_last data z) by (destruct data; simpl in *; [lia | congruence]).
  fold (group_angle (x s) data k0).
  unfold calls. cbn [seq flat_map]. rewrite fold_left_app.
  replace (Z.of_nat k0 + 1)%Z with (Z.of_nat (S k0)) by lia.
  replace (3 * k0 + 3) with (3 * S k0) by lia.
  destruct (Z.of_nat k0 <=? 1)%Z eqn:E.
  - replace (group_calls (x s) data k0)
      with [(Z.of_nat k0, group_angle (x s) data k0)]
      by (unfold group_calls; now rewrite E).
    rewrite servo_set_emit by lia. cbn [fold_left].
    rewrite IH; rewrite ?emit_size, ?emit_x; [reflexivity | lia | lia].
  - replace (group_calls (x s) data k0)
      with [(Z.of_nat k0, group_angle (x s) data k0);
            ((Z.of_nat k0 + 4)%Z, group_angle (x s) data k0)]
      by (unfold group_calls; now rewrite E).
    rewrite servo_set_emit by lia.
    rewrite servo_set_emit by (rewrite emit_size; lia).
    cbn [fold_left].
    rewrite IH; rewrite ?emit_size, ?emit_x; [reflexivity | lia | lia].
Qed.

(** The same loop when the vector runs out in group [k0 + m]: [at] throws
    there, after the calls of the groups before it. *)
Lemma joints_throws (data : list num) : forall n k0 s m,
  m < n ->
  3 * (k0 + m) <= length data < 3 * (k0 + m) + 3 ->
  k0 + m + 4 <= servos_size (env s) ->
  joints n (Z.of_nat k0) (3 * k0) data s
  = Throws (fold_left emit (calls (x s) data k0 m) s).
Proof.
  induction n as [|n IH]; intros k0 s m Hm Hlen Hsize; [lia|].
  cbn [joints].
  destruct m as [|m].
  - assert (H2 : nth_error data (3 * k0 + 2) = None) by (apply nth_error_None; lia).
    rewrite H2.
    destruct (nth_error data (3 * k0)); [|reflexivity].
    destruct (nth_error data (3 * k0 + 1)); reflexivity.
  - set (z := lit float 0 1).
    rewrite (nth_error_nth' data z (n := 3 * k0)) by lia.
    rewrite (nth_error_nth' data z (n := 3 * k0 + 1)) by lia.
    rewrite (nth_error_nth' data z (n := 3 * k0 + 2)) by lia.
    rewrite (@back_last data z) by (destruct data; simpl in *; [lia | congruence]).
    fold (group_angle (x s) data k0).
    unfold calls. cbn [seq flat_map]. rewrite fold_left_app.
    replace (Z.of_nat k0 + 1)%Z with (Z.of_nat (S k0)) by lia.
    replace (3 * k0 + 3) with (3 * S k0) by lia.
    destruct (Z.of_nat k0 <=? 1)%Z eqn:E.
    + replace (group_calls (x s) data k0)
        with [(Z.of_nat k0, group_angle (x s) data k0)]
        by (unfold group_calls; now rewrite E).
      rewrite servo_set_emit by lia. cbn [fold_left].
      rewrite (IH (S k0) _ m); rewrite ?emit_size, ?emit_x; [reflexivity | lia | lia | lia].
    + replace (group_calls (x s) data k0)
        with [(Z.of_nat k0, group_angle (x s) data k0);
              ((Z.of_nat k0 + 4)%Z, group_angle (x s) data k0)]
        by (unfold group_calls; now rewrite E).
      rewrite servo_set_emit by lia.
      rewrite servo_set_emit by (rewrite emit_size; lia).
      cbn [fold_left].
      rewrite (IH (S k0) _ m); rewrite ?emit_size, ?emit_x; [reflexivity | lia | lia | lia].
Qed.

Lemma groups_joint_groups (s : Simulation) :
  4 <= servos_size (env s) ->
  Z.to_nat (groups (servos_size (env s))) = joint_groups s.
Proof.
  intro H. unfold groups, joint_groups.
  pose proof (servos_size_max (env s)) as Hmax.
  rewrite Z.mod_small by lia. lia.
Qed.

Lemma advanced_size s step :
  servos_size (env (advanced s step)) = servos_size (env s).
Proof.
  unfold advanced; cbn [env].
  rewrite env_next_step_size, rob_next_step_size.
  destruct (headless s); [reflexivity | apply v_update_size].
Qed.

Lemma procedure_joints s data step :
  procedure s data step
  = joints (Z.to_nat (groups (servos_size (env (advanced s step))))) 0 0 data
      (advanced s step).
Proof. reflexivity. Qed.

Lemma procedure_returns s data step :
  4 <= servos_size (env s) ->
  3 * joint_groups s <= length data ->
  procedure s data step = Returns tt (stepped s data step).
Proof.
  intros Hs Hlen. rewrite procedure_joints, advanced_size, groups_joint_groups by exact Hs.
  change 0%Z with (Z.of_nat 0). change 0 with (3 * 0) at 2.
  rewrite joints_returns; [reflexivity | simpl; lia |].
  rewrite advanced_size. unfold joint_groups. lia.
Qed.

Lemma procedure_throws s data step :
  4 <= servos_size (env s) ->
  length data < 3 * joint_groups s ->
  procedure s data step
  = Throws (fold_left emit
              (calls (x (advanced s step)) data 0 (length data / 3)) (advanced s step)).
Proof.
  intros Hs Hlen. rewrite procedure_joints, advanced_size, groups_joint_groups by exact Hs.
  change 0%Z with (Z.of_nat 0). change 0 with (3 * 0) at 2.
  pose proof (Nat.div_mod_eq (length data) 3) as Hd.
  assert (Hm : length data mod 3 < 3) by (apply Nat.mod_upper_bound; lia).
  assert (Hk : length data / 3 < joint_groups s)
    by (apply Nat.Div0.div_lt_upper_bound; lia).
  rewrite (@joints_throws data _ 0 _ (length data / 3)); [reflexivity | exact Hk | |].
  - rewrite Nat.add_0_l. lia.
  - rewrite advanced_size. unfold joint_groups in *. lia.
Qed.

Lemma stepped_x s data step :
  x (stepped s data step) = add clock_format (x s) (cvt clock_format step).
Proof. unfold stepped. now rewrite emits_x. Qed.

Lemma stepped_size s data step :
  servos_size (env (stepped s data step)) = servos_size (env s).
Proof. unfold stepped. now rewrite emits_size, advanced_size. Qed.

Lemma stepped_headless s data step :
  headless (stepped s data step) = headless s.
Proof.
  unfold stepped.
  now destruct (emits_members (calls (x (advanced s step)) data 0 (joint_groups s))
                  (advanced s step)) as (-> & _).
Qed.

Lemma stepped_journal s data step :
  journal (stepped s data step)
  = journal s ++ calls (add clock_format (x s) (cvt clock_format step)) data 0 (joint_groups s).
Proof. unfold stepped. now rewrite emits_journal. Qed.

End Procedure.

(** ** The gait controller: claims C1 to C4 *)

Section Controller.

Context {A : Arith} {P : Platform A}.

Lemma in_group_calls clock data k c :
  In c (group_calls clock data k) -> snd c = group_angle clock data k.
Proof.
  unfold group_calls. destruct (Z.of_nat k <=? 1)%Z; simpl; intros H.
  - destruct H as [<- | []]; reflexivity.
  - destruct H as [<- | [<- | []]]; reflexivity.
Qed.

(** C1, as amended.  One step on a vector that holds the genes of every
    group returns, and for every joint group [k] every [set_angle] call of
    the group carries [phase * M_PI / 180], where for the groups other than 6
    and 9 [phase] is [a*tanh(h*sin((f*M_PI)*(x+theta))) + b] with [h = 4], [a]
    the group's first gene times 40 after the threshold, [theta] its second
    gene times 1, [b] its third gene times 40 minus 20, [f] twice the last
    element of the whole vector (the same for every group) and [x] the clock
    after its increment; for the groups 6 and 9 [phase] is that value times
    [1.8f]. *)
Theorem C1_phase_and_angle (s : Simulation) (data : list num) (step : num) :
  4 <= servos_size (env s) ->
  3 * joint_groups s <= length data ->
  exists s' : Simulation,
    procedure s data step = Returns tt s' /\
    x s' = add clock_format (x s) (cvt clock_format step) /\
    journal s' = journal s ++ flat_map (group_calls (x s') data) (seq 0 (joint_groups s)) /\
    forall k : nat, k < joint_groups s ->
      let z := lit float 0 1 in
      let a := fmul (nth (3 * k) data z) (lit float 40 1) in
      let a := if ltb a (lit float 5 1) then lit float 0 1 else a in
      let theta := fmul (nth (3 * k + 1) data z) (lit float 1 1) in
      let b := fsub (fmul (nth (3 * k + 2) data z) (lit float 40 1)) (lit float 20 1) in
      let h := of_int float 4 in
      let f := fmul (last data z) (lit float 2 1) in
      let phase :=
        dadd (dmul (to_double a)
                (tanh (dmul (to_double h)
                   (sin (dmul (dmul (to_double f) M_PI)
                      (to_double (add clock_format (x s') (cvt clock_format theta))))))))
             (to_double b) in
      let emitted :=
        if Nat.eqb k 6 || Nat.eqb k 9 then dmul phase (to_double (lit float 18 10))
        else phase in
      forall c : Z * num, In c (group_calls (x s') data k) ->
        snd c = ddiv (dmul emitted M_PI) (of_int double 180).
Proof.
  intros Hs Hlen. exists (stepped s data step).
  split; [now apply procedure_returns|].
  split; [apply stepped_x|].
  split; [rewrite stepped_journal, stepped_x; reflexivity|].
  intros k Hk z a a' theta b h f phase emitted c Hc.
  rewrite (in_group_calls _ _ _ _ Hc).
  unfold group_angle, radians, emitted_phase. f_equal. f_equal.
  unfold emitted, amplify.
  replace ((Z.of_nat k =? 6)%Z || (Z.of_nat k =? 9)%Z)
    with (Nat.eqb k 6 || Nat.eqb k 9); [reflexivity|].
  f_equal.
  - destruct (Nat.eqb_spec k 6) as [->|H]; [reflexivity|].
    symmetry; apply Z.eqb_neq; lia.
  - destruct (Nat.eqb_spec k 9) as [->|H]; [reflexivity|].
    symmetry; apply Z.eqb_neq; lia.
Qed.

(** C2.  One step on a vector that holds the genes of every group returns,
    and the [set_angle] calls it made are, group after group: for a group
    [k <= 1] one call, on servo [k]; for a group [k > 1] two calls, on servo
    [k] and on servo [k + 4], carrying the same angle.  That angle is the
    phase computed for the group - [a*tanh(h*sin((f*M_PI)*(x+theta))) + b],
    times [1.8f] for the groups 6 and 9 - converted from degrees to radians:
    [phase * M_PI / 180].  The world the step leaves is the advanced world
    with exactly these calls applied. *)
Theorem C2_mirrored_joints (s : Simulation) (data : list num) (step : num) :
  4 <= servos_size (env s) ->
  3 * joint_groups s <= length data ->
  exists s' : Simulation,
    procedure s data step = Returns tt s' /\
    journal s' = journal s ++ flat_map (group_calls (x s') data) (seq 0 (joint_groups s)) /\
    env s' = fold_left (fun w c => set_angle (fst c) (snd c) w)
               (flat_map (group_calls (x s') data) (seq 0 (joint_groups s)))
               (env (advanced s step)) /\
    forall k : nat, k < joint_groups s ->
      let z := lit float 0 1 in
      let a := fmul (nth (3 * k) data z) (lit float 40 1) in
      let a := if ltb a (lit float 5 1) then lit float 0 1 else a in
      let theta := fmul (nth (3 * k + 1) data z) (lit float 1 1) in
      let b := fsub (fmul (nth (3 * k + 2) data z) (lit float 40 1)) (lit float 20 1) in
      let h := of_int float 4 in
      let f := fmul (last data z) (lit float 2 1) in
      let phase :=
        dadd (dmul (to_double a)
                (tanh (dmul (to_double h)
                   (sin (dmul (dmul (to_double f) M_PI)
                      (to_double (add clock_format (x s') (cvt clock_format theta))))))))
             (to_double b) in
      let phase :=
        if Nat.eqb k 6 || Nat.eqb k 9 then dmul phase (to_double (lit float 18 10))
        else phase in
      let angle := ddiv (dmul phase M_PI) (of_int double 180) in
      (k <= 1 -> group_calls (x s') data k = [(Z.of_nat k, angle)]) /\
      (1 < k -> group_calls (x s') data k
                = [(Z.of_nat k, angle); ((Z.of_nat k + 4)%Z, angle)]).
Proof.
  intros Hs Hlen. exists (stepped s data step).
  split; [now apply procedure_returns|].
  split; [rewrite stepped_journal, stepped_x; reflexivity|].
  split.
  - rewrite stepped_x. unfold stepped, calls.
    change (x (advanced s step)) with (add clock_format (x s) (cvt clock_format step)).
    generalize (flat_map (group_calls (add clock_format (x s) (cvt clock_format step)) data)
                  (seq 0 (joint_groups s))).
    generalize (advanced s step).
    intros s0 cs. revert s0.
    induction cs as [|c cs IH]; intro s0; [reflexivity|].
    simpl. now rewrite IH.
  - intros k Hk z a a' theta b h f phase phase' angle.
    assert (Ha : group_angle (x (stepped s data step)) data k = angle).
    { unfold angle, phase', group_angle, radians, emitted_phase. f_equal. f_equal.
      unfold amplify.
      replace ((Z.of_nat k =? 6)%Z || (Z.of_nat k =? 9)%Z)
        with (Nat.eqb k 6 || Nat.eqb k 9); [reflexivity|].
      f_equal.
      - destruct (Nat.eqb_spec k 6) as [->|H]; [reflexivity|].
        symmetry; apply Z.eqb_neq; lia.
      - destruct (Nat.eqb_spec k 9) as [->|H]; [reflexivity|].
        symmetry; apply Z.eqb_neq; lia. }
    unfold group_calls. rewrite Ha. split; intro H.
    + replace (Z.of_nat k <=? 1)%Z with true by (symmetry; apply Z.leb_le; lia).
      reflexivity.
    + replace (Z.of_nat k <=? 1)%Z with false by (symmetry; apply Z.leb_gt; lia).
      reflexivity.
Qed.

(** C4.  One step on a vector that holds the genes of every group returns,
    and the angle its [set_angle] calls carry for a joint group [k] is the
    phase emitted for the group, in radians, where the phase emitted is: for
    [k = 6] and [k = 9], the full phase
    [a*tanh(h*sin((f*M_PI)*(x+theta))) + b] - the bias [b] included - times
    [1.8f]; for every other [k], the full phase itself.  So a group 6 or 9
    emits 1.8f times what a group of another index with the same three genes
    emits in the same step. *)
Theorem C4_outer_amplification (s : Simulation) (data : list num) (step : num) :
  4 <= servos_size (env s) ->
  3 * joint_groups s <= length data ->
  exists s' : Simulation,
    procedure s data step = Returns tt s' /\
    journal s' = journal s ++ flat_map (group_calls (x s') data) (seq 0 (joint_groups s)) /\
    let z := lit float 0 1 in
    let full := fun k : nat =>
      let a := fmul (nth (3 * k) data z) (lit float 40 1) in
      let a := if ltb a (lit float 5 1) then lit float 0 1 else a in
      let theta := fmul (nth (3 * k + 1) data z) (lit float 1 1) in
      let b := fsub (fmul (nth (3 * k + 2) data z) (lit float 40 1)) (lit float 20 1) in
      let h := of_int float 4 in
      let f := fmul (last data z) (lit float 2 1) in
      dadd (dmul (to_double a)
              (tanh (dmul (to_double h)
                 (sin (dmul (dmul (to_double f) M_PI)
                    (to_double (add clock_format (x s') (cvt clock_format theta))))))))
           (to_double b) in
    let outer := fun k : nat => Nat.eqb k 6 || Nat.eqb k 9 in
    let emitted := fun k : nat =>
      if outer k then dmul (full k) (to_double (lit float 18 10)) else full k in
    let angle := fun k : nat => ddiv (dmul (emitted k) M_PI) (of_int double 180) in
    (forall k : nat, k < joint_groups s ->
       group_calls (x s') data k = [(Z.of_nat k, angle k)] \/
       group_calls (x s') data k
       = [(Z.of_nat k, angle k); ((Z.of_nat k + 4)%Z, angle k)]) /\
    (forall k j : nat, k < joint_groups s -> j < joint_groups s ->
       outer k = true -> outer j = false ->
       nth (3 * k) data z = nth (3 * j) data z ->
       nth (3 * k + 1) data z = nth (3 * j + 1) data z ->
       nth (3 * k + 2) data z = nth (3 * j + 2) data z ->
       emitted j = full j /\
       emitted k = dmul (emitted j) (to_double (lit float 18 10))).
Proof.
  intros Hs Hlen. exists (stepped s data step).
  split; [now apply procedure_returns|].
  split; [rewrite stepped_journal, stepped_x; reflexivity|].
  intros z full outer emitted angle. split.
  - intros k Hk.
    assert (Ha : group_angle (x (stepped s data step)) data k = angle k).
    { unfold angle, emitted, outer, full, group_angle, radians, emitted_phase.
      f_equal. f_equal. unfold amplify.
      replace ((Z.of_nat k =? 6)%Z || (Z.of_nat k =? 9)%Z)
        with (Nat.eqb k 6 || Nat.eqb k 9); [reflexivity|].
      f_equal.
      - destruct (Nat.eqb_spec k 6) as [->|H]; [reflexivity|].
        symmetry; apply Z.eqb_neq; lia.
      - destruct (Nat.eqb_spec k 9) as [->|H]; [reflexivity|].
        symmetry; apply Z.eqb_neq; lia. }
    unfold group_calls. rewrite Ha.
    destruct (Z.of_nat k <=? 1)%Z; [left | right]; reflexivity.
  - intros k j Hk Hj Ok Oj G0 G1 G2.
    unfold emitted. rewrite Ok, Oj. split; [reflexivity|].
    unfold full. now rewrite G0, G1, G2.
Qed.

End Controller.

(** C3, as amended.  When the first gene of a group times 40 is below 5 the
    amplitude is replaced by [0.0f], and then: in exact arithmetic the phase
    computed on line 116 is exactly the bias [b], whatever the clock and the
    other genes, and the phase emitted is [b] for the groups other than 6 and
    9 and [b] times 1.8 for the groups 6 and 9; in IEEE arithmetic the same
    holds, up to the sign of a zero, provided the value [tanh] returned is
    finite (zero times an infinity or a NaN is a NaN). *)
Theorem C3_deadband :
  (forall (P : Platform Exact) (clock pa pt pb lastg : @num Exact) (i : Z),
     (pa * 40 < 5)%R ->
     let b := (pb * 40 - 20)%R in
     amplitude pa = 0%R /\
     oscillation clock (amplitude pa) (fmul pt (lit float 1 1)) b
       (fmul lastg (lit float 2 1)) (of_int float 4) = b /\
     emitted_phase clock i pa pt pb lastg
     = if ((i =? 6) || (i =? 9))%Z then (b * (18 / 10))%R else b)
  /\
  (forall (P : Platform IEEE) (clock pa pt pb lastg : @num IEEE) (i : Z),
     ltb (fmul pa (lit float 40 1)) (lit float 5 1) = true ->
     let b := fsub (fmul pb (lit float 40 1)) (lit float 20 1) in
     let theta := fmul pt (lit float 1 1) in
     let f := fmul lastg (lit float 2 1) in
     let t := tanh (dmul (to_double (of_int float 4))
                      (sin (dmul (dmul (to_double f) M_PI)
                         (to_double (add clock_format clock (cvt clock_format theta)))))) in
     IEEE754.finite t = true ->
     amplitude pa = S754_zero false /\
     IEEE754.same (emitted_phase clock i pa pt pb lastg) (amplify i (to_double b))).
Proof.
  split.
  - intros P clock pa pt pb lastg i Ha b.
    assert (Hamp : @amplitude Exact pa = 0%R).
    { unfold amplitude. cbn.
      replace (ExactR.ltb (pa * (40 / 1)) (5 / 1)) with true
        by (symmetry; apply ExactR.ltb_true; lra).
      lra. }
    assert (Hosc : oscillation clock (amplitude pa) (fmul pt (lit float 1 1)) b
                     (fmul lastg (lit float 2 1)) (of_int float 4) = b).
    { rewrite Hamp. unfold oscillation. cbn. lra. }
    split; [exact Hamp|]. split; [exact Hosc|].
    unfold emitted_phase.
    change (fsub (fmul pb (lit float 40 1)) (lit float 20 1))
      with (pb * (40 / 1) - 20 / 1)%R.
    replace (pb * (40 / 1) - 20 / 1)%R with b by (unfold b; lra).
    rewrite Hosc. unfold amplify. destruct ((i =? 6) || (i =? 9))%Z; reflexivity.
  - intros P clock pa pt pb lastg i Ha b theta f t Ht.
    assert (Hamp : @amplitude IEEE pa = S754_zero false).
    { unfold amplitude. now rewrite Ha. }
    split; [exact Hamp|].
    unfold emitted_phase. rewrite Hamp. fold b theta f.
    assert (Hosc : IEEE754.same
              (oscillation clock (S754_zero false) theta b f (of_int float 4))
              (to_double b)).
    { unfold oscillation. fold t. apply (@Rounding.zero_mul_add double). exact Ht. }
    unfold amplify. destruct ((i =? 6) || (i =? 9))%Z; [|exact Hosc].
    apply (@Rounding.same_mul double). exact Hosc.
Qed.

(** ** The stepping loop *)

Section Stepping.

Context {A : Arith} {P : Platform A}.

Lemma servo_set_kept j a s s' :
  servo_set j a s = Some s' ->
  x s' = x s /\ headless s' = headless s /\
  servos_size (env s') = servos_size (env s).
Proof.
  unfold servo_set. destruct (j <? _)%Z; [|discriminate].
  intros [= <-]. cbn. now rewrite set_angle_size.
Qed.

Lemma joints_kept (data : list num) : forall n i g s, kept s (joints n i g data s).
Proof.
  induction n as [|n IH]; intros i g s; cbn [joints]; [cbn; tauto|].
  destruct (nth_error data g); [|cbn; tauto].
  destruct (nth_error data (g + 1)); [|cbn; tauto].
  destruct (nth_error data (g + 2)); [|cbn; tauto].
  destruct (back data); [|exact I].
  destruct (i <=? 1)%Z.
  - destruct (servo_set i _ s) as [s1|] eqn:E1; [|exact I].
    apply servo_set_kept in E1. destruct E1 as (E1 & E2 & E3).
    specialize (IH (i + 1)%Z (g + 3) s1). unfold kept in *.
    destruct (joints n (i + 1) (g + 3) data s1); try exact I;
      now rewrite <- E1, <- E2, <- E3.
  - destruct (servo_set i _ s) as [s1|] eqn:E1; [|exact I].
    destruct (servo_set (i + 4) _ s1) as [s2|] eqn:E2; [|exact I].
    apply servo_set_kept in E1, E2.
    destruct E1 as (E1 & E1' & E1''), E2 as (E2 & E2' & E2'').
    specialize (IH (i + 1)%Z (g + 3) s2). unfold kept in *.
    destruct (joints n (i + 1) (g + 3) data s2); try exact I;
      now rewrite <- E1, <- E2, <- E1', <- E2', <- E1'', <- E2''.
Qed.

(** Every iteration that comes back, by return or by exception, has added
    [step] to the clock, once. *)
Lemma procedure_clock s data step s' :
  procedure s data step = Returns tt s' \/ procedure s data step = Throws s' ->
  x s' = add clock_format (x s) (cvt clock_format step) /\
  headless s' = headless s /\
  servos_size (env s') = servos_size (env s).
Proof.
  rewrite procedure_joints.
  pose proof (joints_kept data
    (Z.to_nat (groups (servos_size (env (advanced s step))))) 0 0 (advanced s step)) as K.
  intros [H | H]; rewrite H in K; cbn [kept] in K;
    rewrite advanced_size in K; exact K.
Qed.

Lemma stepping_halt fuel s config step step_limit :
  ltb (x s) (of_int clock_format step_limit) = false ->
  stepping fuel s config step step_limit = Some (Returns tt s).
Proof. intro H. destruct fuel; cbn [stepping]; now rewrite H. Qed.

Lemma stepping_starved s config step step_limit :
  ltb (x s) (of_int clock_format step_limit) = true ->
  stepping 0 s config step step_limit = None.
Proof. intro H. cbn [stepping]. now rewrite H. Qed.

(** One turn of a headless run whose vector holds the genes of every group. *)
Lemma stepping_turn fuel s config step step_limit :
  ltb (x s) (of_int clock_format step_limit) = true ->
  headless s = true ->
  4 <= servos_size (env s) ->
  3 * joint_groups s <= length config ->
  stepping (S fuel) s config step step_limit
  = stepping fuel (stepped s config step) config step step_limit.
Proof.
  intros Hlt Hh Hs Hlen. cbn [stepping]. rewrite Hlt, Hh. cbn [negb andb].
  now rewrite procedure_returns.
Qed.

Lemma turns_x k : forall s config step,
  x (turns k s config step) = clock_after k (x s) step.
Proof.
  induction k as [|k IH]; intros s config step; [reflexivity|].
  unfold clock_after in *. cbn [turns ticks]. now rewrite IH, stepped_x.
Qed.

(** The loop of a headless run on a vector that holds the genes of every
    group is decided by the clock alone: it is left after [k] turns when the
    [k]-th clock is the first not below the limit. *)
Lemma stepping_reaches k : forall s config step step_limit,
  headless s = true ->
  4 <= servos_size (env s) ->
  3 * joint_groups s <= length config ->
  (forall j, j < k -> ltb (clock_after j (x s) step) (of_int clock_format step_limit) = true) ->
  ltb (clock_after k (x s) step) (of_int clock_format step_limit) = false ->
  exactly k s config step step_limit (turns k s config step) /\
  forall fuel, k <= fuel ->
    stepping fuel s config step step_limit = Some (Returns tt (turns k s config step)).
Proof.
  unfold clock_after.
  induction k as [|k IH]; intros s config step step_limit Hh Hs Hlen Hbelow Hk.
  - cbn [ticks] in Hk. split.
    + split; [now apply stepping_halt | intros m Hm; lia].
    + intros fuel _. now apply stepping_halt.
  - assert (H0 : ltb (x s) (of_int clock_format step_limit) = true)
      by (apply (Hbelow 0); lia).
    destruct (IH (stepped s config step) config step step_limit) as ((E1 & E2) & E3).
    + now rewrite stepped_headless.
    + now rewrite stepped_size.
    + unfold joint_groups in *. now rewrite stepped_size.
    + intros j Hj. rewrite stepped_x. apply (Hbelow (S j)). lia.
    + rewrite stepped_x. exact Hk.
    + cbn [turns]. split; [split|].
      * now rewrite stepping_turn.
      * intros [|m] Hm; [now apply stepping_starved|].
        rewrite stepping_turn by assumption. apply E2. lia.
      * intros [|fuel] Hf; [lia|].
        rewrite stepping_turn by assumption. apply E3. lia.
Qed.


(** On any platform and for any vector: a loop that ran exactly [n] turns
    leaves the clock [n] increments further, not below the limit, and the
    clock before the last turn was below it. *)
Lemma exactly_clock n : forall s config step step_limit s',
  exactly n s config step step_limit s' ->
  x s' = clock_after n (x s) step /\
  ltb (x s') (of_int clock_format step_limit) = false /\
  (forall j, j < n -> ltb (clock_after j (x s) step) (of_int clock_format step_limit) = true).
Proof.
  unfold clock_after.
  induction n as [|n IH]; intros s config step step_limit s' [H Hmin].
  - cbn [stepping] in H.
    destruct (ltb (x s) (of_int clock_format step_limit)) eqn:E; [discriminate|].
    injection H as <-. cbn [ticks].
    split; [reflexivity|]. split; [exact E | intros j Hj; lia].
  - assert (E : ltb (x s) (of_int clock_format step_limit) = true).
    { destruct (ltb (x s) (of_int clock_format step_limit)) eqn:E; [reflexivity|].
      pose proof (stepping_halt 0 s config step step_limit E) as H0.
      rewrite (Hmin 0) in H0 by lia. discriminate. }
    cbn [stepping] in H. rewrite E in H.
    destruct (negb (headless s) && v_done (env s)) eqn:Eq; [discriminate|].
    destruct (procedure s config step) as [[] s1 | s1 | |] eqn:Ep; try discriminate.
    destruct (@procedure_clock s config step s1 (or_introl Ep)) as (Hx & _).
    destruct (IH s1 config step step_limit s') as (H1 & H2 & H3).
    + split; [exact H|]. intros m Hm.
      specialize (Hmin (S m) ltac:(lia)). cbn [stepping] in Hmin.
      now rewrite E, Eq, Ep in Hmin.
    + cbn [ticks]. rewrite <- Hx. split; [exact H1|]. split; [exact H2|].
      intros [|j] Hj; [exact E|]. cbn [ticks]. rewrite <- Hx. apply H3. lia.
Qed.

End Stepping.

(** ** Terrain, fitness and the boundary cases: claims C5, C7, C8, C9 *)

Section Evaluation.

Context {A : Arith} {P : Platform A}.

Lemma add_block_members size sg :
  headless (fst (add_block size sg)) = headless (fst sg) /\
  tilt (fst (add_block size sg)) = tilt (fst sg) /\
  x (fst (add_block size sg)) = x (fst sg) /\
  journal (fst (add_block size sg)) = journal (fst sg).
Proof.
  destruct sg as [s g]. unfold add_block.
  destruct (rsize size g) as [da g1].
  destruct (rlocation g1) as [dx g2].
  destruct (rlocation g2) as [dy g3].
  cbn. tauto.
Qed.

Lemma iter_add_block_members size n : forall sg,
  headless (fst (Nat.iter n (add_block size) sg)) = headless (fst sg) /\
  tilt (fst (Nat.iter n (add_block size) sg)) = tilt (fst sg) /\
  x (fst (Nat.iter n (add_block size) sg)) = x (fst sg) /\
  journal (fst (Nat.iter n (add_block size) sg)) = journal (fst sg).
Proof.
  induction n as [|n IH]; intro sg; [cbn; tauto|].
  cbn [Nat.iter nat_rect].
  destruct (add_block_members size (Nat.iter n (add_block size) sg)) as (H1 & H2 & H3 & H4).
  destruct (IH sg) as (I1 & I2 & I3 & I4).
  unfold Nat.iter in *.
  rewrite H1, H2, H3, H4. tauto.
Qed.

Lemma add_block_boxes size sg :
  boxes (fst (add_block size sg))
  = boxes (fst sg) ++ [drawn size (tilt (fst sg)) (snd sg)] /\
  snd (add_block size sg) = next_engine size (snd sg).
Proof.
  destruct sg as [s g]. unfold add_block, drawn, next_engine. cbn [fst snd].
  destruct (rsize size g) as [da g1]. cbn [fst snd].
  destruct (rlocation g1) as [dx g2]. cbn [fst snd].
  destruct (rlocation g2) as [dy g3]. split; reflexivity.
Qed.

Lemma iter_add_block_boxes size n : forall sg,
  boxes (fst (Nat.iter n (add_block size) sg))
  = boxes (fst sg)
    ++ map (fun k => drawn size (tilt (fst sg)) (Nat.iter k (next_engine size) (snd sg)))
         (seq 0 n) /\
  snd (Nat.iter n (add_block size) sg) = Nat.iter n (next_engine size) (snd sg).
Proof.
  induction n as [|n IH]; intro sg.
  - cbn. now rewrite app_nil_r.
  - destruct (IH sg) as (H1 & H2).
    destruct (iter_add_block_members size n sg) as (_ & Ht & _).
    change (Nat.iter (S n) (add_block size) sg)
      with (add_block size (Nat.iter n (add_block size) sg)).
    destruct (add_block_boxes size (Nat.iter n (add_block size) sg)) as (B1 & B2).
    rewrite B1, B2, H1, H2, Ht, seq_S, map_app, <- app_assoc.
    split; reflexivity.
Qed.

Lemma run_conf_fitness (fuel : nat) (s : Simulation) (config : list num)
    (step : num) (step_limit : Z) (f : num) (s' : Simulation) :
  run_conf fuel s config step step_limit = Some (Returns f s') ->
  f = to_float (opp (fst (fst (pos (env s'))))) /\
  ltb (x s') (of_int clock_format step_limit) = false.
Proof.
  unfold run_conf.
  destruct (stepping fuel s config step step_limit) as [[[] s1 | s1 | |]|] eqn:E;
    try discriminate.
  intros [= <- <-]. split; [reflexivity|].
  revert s E. induction fuel as [|fuel IH]; intros s E; cbn [stepping] in E.
  - destruct (ltb (x s) (of_int clock_format step_limit)) eqn:El; [discriminate|].
    now injection E as <-.
  - destruct (ltb (x s) (of_int clock_format step_limit)) eqn:El;
      [|now injection E as <-].
    destruct (negb (headless s) && v_done (env s)); [discriminate|].
    destruct (procedure s config step) as [[] s2 | s2 | |]; try discriminate.
    now apply (IH s2).
Qed.

Lemma construct_fresh (now : Z) (tlt : num) (count size : Z) (hl : bool) :
  let s := construct now tlt count size hl in
  headless s = hl /\ tilt s = tlt /\ x s = x_initial /\ journal s = [].
Proof.
  unfold construct, add_blocks.
  match goal with |- context [Nat.iter ?n ?f ?sg] =>
    destruct (iter_add_block_members size n sg) as (H1 & H2 & H3 & H4) end.
  unfold Nat.iter in *. cbn zeta. rewrite H1, H2, H3, H4. cbn. tauto.
Qed.

Lemma add_block_env size sg :
  env (fst (add_block size sg))
  = registered (headless (fst sg)) (env (fst sg)) (drawn size (tilt (fst sg)) (snd sg)).
Proof.
  destruct sg as [s g]. unfold add_block, drawn, registered. cbn [fst snd].
  destruct (rsize size g) as [da g1]. cbn [fst snd].
  destruct (rlocation g1) as [dx g2]. cbn [fst snd].
  destruct (rlocation g2) as [dy g3]. reflexivity.
Qed.

Lemma iter_add_block_env size n : forall sg,
  env (fst (Nat.iter n (add_block size) sg))
  = fold_left (registered (headless (fst sg)))
      (map (fun k => drawn size (tilt (fst sg)) (Nat.iter k (next_engine size) (snd sg)))
         (seq 0 n))
      (env (fst sg)).
Proof.
  induction n as [|n IH]; intro sg; [reflexivity|].
  destruct (iter_add_block_members size n sg) as (Hh & Ht & _).
  destruct (iter_add_block_boxes size n sg) as (_ & Hg).
  change (Nat.iter (S n) (add_block size) sg)
    with (add_block size (Nat.iter n (add_block size) sg)).
  rewrite add_block_env, Hh, Ht, Hg, IH, seq_S, map_app, fold_left_app.
  reflexivity.
Qed.

Lemma add_blocks_world (now count size : Z) (s : Simulation) :
  env (add_blocks now count size s)
  = fold_left (registered (headless s))
      (map (fun k => drawn size (tilt s) (Nat.iter k (next_engine size) (mt19937 now)))
         (seq 0 (Z.to_nat count)))
      (env s).
Proof. exact (iter_add_block_env size (Z.to_nat count) (s, mt19937 now)). Qed.

(** C7.  [add_blocks] adds [count] obstacles (none when [count] is not
    positive), one for each turn of its loop, each from three draws of the
    one engine: an amplitude [a] between 0.002 and [(float) size / 1000],
    then the offsets of its centre [(bx, by_)] from [(xc, yc)], each between
    [-(s - 0.1)] and [s - 0.1], where [xc = -0.4], [yc = 0] and [s = 0.5], all
    three [float].  Every one of them has as height the Gaussian
    [a*exp(-(pow(bx-xc,2)/(2*pow(s,2)) + pow(by_-yc,2)/(2*pow(s,2))))] at its
    own centre; as width and as depth four times its height; as third
    coordinate half its height plus [tan(tilt)] times [-bx]; the rotation
    [(0, -tilt, 0)]; and it is fixed.  The ground of a simulation is the
    environment made with the rotation [(0, tilt, 0)]: the obstacles are
    turned by [-tilt] about the axis the ground is tilted about, and the
    world receives each of them - shown to the viewer before it is fixed,
    unless the run is headless, then added to the ground. *)
Theorem C7_obstacle_geometry (now count size : Z) (s : Simulation) :
  boxes (add_blocks now count size s)
  = boxes s
    ++ map (fun k => drawn size (tilt s) (Nat.iter k (next_engine size) (mt19937 now)))
         (seq 0 (Z.to_nat count)) /\
  (forall g : rng,
    let xc := cvt float (opp (lit double 4 10)) in
    let yc := of_int float 0 in
    let s_ := cvt float (lit double 5 10) in
    let r := sub double (cvt double s_) (lit double 1 10) in
    let size_range :=
      uniform_real (lit double 2 1000)
        (cvt double (div float (of_int float size) (of_int float 1000))) in
    let loc_range := uniform_real (opp r) r in
    let a := cvt float (fst (size_range g)) in
    let g1 := snd (size_range g) in
    let bx := cvt float (add double (fst (loc_range g1)) (cvt double xc)) in
    let g2 := snd (loc_range g1) in
    let by_ := cvt float (add double (fst (loc_range g2)) (cvt double yc)) in
    let g3 := snd (loc_range g2) in
    let b := drawn size (tilt s) g in
    let two := of_int double 2 in
    let spread2 := mul double two (pow (cvt double s_) two) in
    next_engine size g = g3 /\
    height b
    = cvt float (mul double (cvt double a)
        (exp (opp (add double
                     (div double (pow (cvt double (sub float bx xc)) two) spread2)
                     (div double (pow (cvt double (sub float by_ yc)) two) spread2))))) /\
    width b = mul float (height b) (of_int float 4) /\
    depth b = mul float (height b) (of_int float 4) /\
    center b = (cvt double bx, cvt double by_,
                add double (cvt double (div float (height b) (of_int float 2)))
                     (mul double (tan (cvt double (tilt s))) (cvt double (opp bx)))) /\
    mass b = 10%Z /\
    rotation b = (lit float 0 1, opp (tilt s), lit float 0 1) /\
    fixed b = true) /\
  (forall (tlt : num) (hl : bool),
    let sim := construct now tlt count size hl in
    let ground := Environment (lit float 0 1) tlt (lit float 0 1) in
    let w := if hl then clone ground else accept_robot (clone ground) in
    tilt sim = tlt /\
    Forall (fun b => rotation b = (lit float 0 1, opp tlt, lit float 0 1) /\
                     fixed b = true) (boxes sim) /\
    env sim
    = fold_left (fun w b => add_to_ground b
                   (if hl then w
                    else accept_box
                           {| center := center b; mass := mass b; width := width b;
                              depth := depth b; height := height b;
                              rotation := rotation b; fixed := false |} w))
        (boxes sim) w).
Proof.
  split; [|split].
  - unfold add_blocks.
    destruct (iter_add_block_boxes size (Z.to_nat count) (s, mt19937 now)) as (H1 & _).
    exact H1.
  - intros g xc0 yc0 s_ r size_range loc_range a g1 bx g2 by_ g3 b two spread2.
    unfold b, drawn, fix_, block, gauss, next_engine. cbn.
    repeat split; reflexivity.
  - intros tlt hl sim ground w.
    destruct (construct_fresh now tlt count size hl) as (Hh & Ht & _).
    fold sim in Hh, Ht.
    assert (Hb : boxes sim
                 = map (fun k => drawn size tlt
                                   (Nat.iter k (next_engine size) (mt19937 now)))
                     (seq 0 (Z.to_nat count))).
    { unfold sim, construct, add_blocks.
      match goal with |- context [Nat.iter ?n ?f ?sg] =>
        destruct (iter_add_block_boxes size n sg) as (Hb & _) end.
      unfold Nat.iter in *. cbn zeta. rewrite Hb. reflexivity. }
    split; [exact Ht|]. split.
    + rewrite Hb. apply Forall_forall. intros b Hin. apply in_map_iff in Hin.
      destruct Hin as (k & <- & _). split; reflexivity.
    + rewrite Hb. unfold sim, construct. cbn zeta. rewrite add_blocks_world.
      reflexivity.
Qed.

(** C9.  With a limit of zero on a simulation just constructed the loop
    runs no turn, whatever the fuel: the object is left as it was - clock,
    world and journal of calls - and the value returned is the fitness of
    the robot's position as constructed. *)
Theorem C9_zero_limit (now : Z) (tlt : num) (count size : Z) (hl : bool)
    (config : list num) (step : num) (fuel : nat) :
  let s := construct now tlt count size hl in
  x s = x_initial /\ journal s = [] /\
  stepping fuel s config step 0 = Some (Returns tt s) /\
  run_conf fuel s config step 0
  = Some (Returns (to_float (opp (fst (fst (pos (env s)))))) s).
Proof.
  intro s.
  destruct (construct_fresh now tlt count size hl) as (_ & _ & Hx & Hj).
  fold s in Hx, Hj.
  assert (Hs : stepping fuel s config step 0 = Some (Returns tt s)).
  { apply stepping_halt. rewrite Hx. apply ltb_irrefl. }
  repeat split; try assumption.
  unfold run_conf. now rewrite Hs.
Qed.

(** C8, as amended.  On a robot with its four trailing servos: a vector of
    at least three genes for every joint group and one more makes one step
    return; so does a vector of exactly three genes for every group, whose
    last bias gene then serves as the frequency gene; a shorter vector makes
    [std::vector::at] throw [std::out_of_range] - a checked failure, no
    undefined behaviour - in the first group whose genes are missing, when
    the clock and the world have been advanced and the servos of the groups
    before it have been set. *)
Theorem C8_vector_length (s : Simulation) (data : list num) (step : num) :
  4 <= servos_size (env s) ->
  (3 * joint_groups s + 1 <= length data ->
     procedure s data step = Returns tt (stepped s data step)) /\
  (length data = 3 * joint_groups s ->
     procedure s data step = Returns tt (stepped s data step) /\
     (0 < joint_groups s ->
        last data (lit float 0 1)
        = nth (3 * (joint_groups s - 1) + 2) data (lit float 0 1))) /\
  (length data < 3 * joint_groups s ->
     exists s' : Simulation,
       procedure s data step = Throws s' /\
       x s' = add clock_format (x s) (cvt clock_format step) /\
       journal s' = journal s ++ calls (x s') data 0 (length data / 3) /\
       env s' = env (fold_left emit (calls (x s') data 0 (length data / 3))
                       (advanced s step))).
Proof.
  intro Hs. split; [|split].
  - intro Hlen. apply procedure_returns; [exact Hs | lia].
  - intro Hlen. split; [apply procedure_returns; [exact Hs | lia]|].
    intro Hpos.
    replace (3 * (joint_groups s - 1) + 2) with (length data - 1) by lia.
    clear Hs. generalize (lit float 0 1) as z.
    destruct data as [|d data]; [cbn in Hlen; lia|]. intro z.
    rewrite last_cons. clear Hlen Hpos.
    cbn [length]. rewrite Nat.sub_succ, Nat.sub_0_r.
    revert d. induction data as [|e data IH]; intro d; [reflexivity|].
    rewrite last_cons, (IH e). reflexivity.
  - intro Hlen. eexists. split; [now apply procedure_throws|].
    rewrite emits_x, emits_journal. cbn [advanced x journal]. auto.
Qed.

End Evaluation.

(** C5, as amended.  Whenever [run_conf] returns - its loop was left
    because the clock is no longer below the limit - the value returned is
    the first coordinate of the robot's position at that moment, a [double],
    negated and converted to the [float] the function returns; nothing else is
    done to it.  In exact arithmetic that is the negated coordinate itself.
    In IEEE arithmetic the conversion rounds: a position of 3.2 gives the
    [float] -3.2f, which is not the [double] -3.2. *)
Theorem C5_fitness_is_negated_x :
  (forall (A : Arith) (P : Platform A) (fuel : nat) (s : Simulation) (config : list num)
          (step : num) (step_limit : Z) (f : num) (s' : Simulation),
     run_conf fuel s config step step_limit = Some (Returns f s') ->
     f = cvt float (opp (fst (fst (pos (env s'))))) /\
     ltb (x s') (of_int clock_format step_limit) = false)
  /\
  (forall (P : Platform Exact) (fuel : nat) (s : Simulation) (config : list (@num Exact))
          (step : @num Exact) (step_limit : Z) (f : @num Exact) (s' : Simulation),
     run_conf fuel s config step step_limit = Some (Returns f s') ->
     f = (- fst (fst (pos (env s'))))%R)
  /\
  (forall (P : Platform IEEE) (fuel : nat) (s : Simulation) (config : list (@num IEEE))
          (step : @num IEEE) (step_limit : Z) (f : @num IEEE) (s' : Simulation),
     run_conf fuel s config step step_limit = Some (Returns f s') ->
     fst (fst (pos (env s'))) = lit double 32 10 ->
     f = lit float (-32) 10 /\
     f = S754_finite true 13421773 (-22) /\
     opp (fst (fst (pos (env s')))) = S754_finite true 7205759403792794 (-51)).
Proof.
  split; [|split].
  - intros A P fuel s config step step_limit f s'. apply run_conf_fitness.
  - intros P fuel s config step step_limit f s' H.
    apply run_conf_fitness in H. destruct H as [-> _]. reflexivity.
  - intros P fuel s config step step_limit f s' H Hp.
    apply run_conf_fitness in H. destruct H as [-> _]. rewrite Hp.
    repeat split; vm_compute; reflexivity.
Qed.

(** ** The clock in exact arithmetic *)

Section ExactClock.

Context {P : Platform Exact}.

Lemma exact_ticks (cf : format) (k : nat) : forall v step : @num Exact,
  @ticks Exact cf k v step = (v + INR k * step)%R.
Proof.
  induction k as [|k IH]; intros v step.
  - cbn. lra.
  - cbn [ticks]. rewrite IH, S_INR. cbn. lra.
Qed.

Lemma exact_clock_after (k : nat) (clock step : @num Exact) :
  @clock_after Exact P k clock step = (clock + INR k * step)%R.
Proof. apply exact_ticks. Qed.





End ExactClock.

(** ** The clock in IEEE arithmetic, for a step that is not positive *)

Section NonPositiveStep.

Context {P : Platform IEEE}.







End NonPositiveStep.

(** ** The clock across calls, and termination: claims C6 and C10 *)

Lemma ticks_add {A : Arith} (cf : format) (n1 n2 : nat) : forall v step : num,
  ticks cf (n1 + n2) v step = ticks cf n2 (ticks cf n1 v step) step.
Proof.
  induction n1 as [|n1 IH]; intros v step; [reflexivity|].
  cbn [Nat.add ticks]. apply IH.
Qed.

Lemma quarters_IEEE (cf : format) : @quarters IEEE cf.
Proof.
  unfold quarters. cbn zeta.
  repeat split;
    try (intros j Hj; destruct j as [|[|[|[|j]]]]; [destruct cf; vm_compute; reflexivity .. | lia]);
    destruct cf; vm_compute; reflexivity.
Qed.

Lemma quarters_Exact (cf : format) : @quarters Exact cf.
Proof.
  unfold quarters. cbn zeta.
  repeat split;
    try (intros j Hj; rewrite exact_ticks; apply ExactR.ltb_true;
         destruct j as [|[|[|[|j]]]]; [cbn; lra .. | lia]);
    rewrite ?exact_ticks; try apply ExactR.ltb_false; cbn; lra.
Qed.

Section Calls.

Context {A : Arith} {P : Platform A}.

Lemma quarter_runs (s : Simulation) (config : list num) :
  quarters clock_format ->
  headless s = true ->
  4 <= servos_size (env s) ->
  3 * joint_groups s <= length config ->
  x s = x_initial ->
  let q := lit float 1 4 in
  let s1 := turns 4 s config q in
  let s2 := turns 4 s1 config q in
  exactly 4 s config q 1 s1 /\ x s1 = of_int clock_format 1 /\
  exactly 4 s1 config q 2 s2 /\ x s2 = of_int clock_format 2.
Proof.
  intros (Q1 & Q2 & Q3 & Q4 & Q5 & Q6) Hh Hs Hlen Hx q s1 s2.
  assert (X1 : x s1 = of_int clock_format 1).
  { unfold s1. rewrite turns_x, Hx. exact Q3. }
  assert (R1 : exactly 4 s config q 1 s1).
  { apply stepping_reaches; try assumption; rewrite Hx; assumption. }
  assert (Hwf : headless s1 = true /\ servos_size (env s1) = servos_size (env s)).
  { unfold s1. cbn [turns].
    rewrite !stepped_headless, !stepped_size. auto. }
  destruct Hwf as [Hh1 Hs1].
  assert (R2 : exactly 4 s1 config q 2 s2).
  { apply stepping_reaches; try assumption; rewrite ?X1; try assumption.
    - now rewrite Hs1.
    - unfold joint_groups in *. now rewrite Hs1. }
  repeat split; try apply R1; try apply R2; try assumption.
  unfold s2. rewrite turns_x, X1. exact Q6.
Qed.

(** Two calls in a row, whatever their vectors and their steps. *)
Lemma consecutive_calls (n1 n2 : nat) (s s1 s2 : Simulation) (config1 config2 : list num)
    (step1 step2 : num) (limit1 limit2 : Z) :
  exactly n1 s config1 step1 limit1 s1 ->
  exactly n2 s1 config2 step2 limit2 s2 ->
  x s1 = clock_after n1 (x s) step1 /\
  x s2 = clock_after n2 (x s1) step2 /\
  x s2 = clock_after n2 (clock_after n1 (x s) step1) step2 /\
  (step1 = step2 -> x s2 = clock_after (n1 + n2) (x s) step1) /\
  forall (config' : list num) (step' : num), exactly 0 s1 config' step' limit1 s1.
Proof.
  intros E1 E2.
  destruct (exactly_clock E1) as (H1 & H1' & _).
  destruct (exactly_clock E2) as (H2 & _ & _).
  split; [exact H1|]. split; [exact H2|]. split; [now rewrite <- H1|]. split.
  - intros <-. unfold clock_after in *. now rewrite ticks_add, <- H1.
  - intros config' step'. split; [now apply stepping_halt | intros m Hm; lia].
Qed.

Lemma quarter_calls (s : Simulation) (config1 config2 : list num) :
  quarters clock_format ->
  headless s = true ->
  4 <= servos_size (env s) ->
  3 * joint_groups s <= length config1 ->
  3 * joint_groups s <= length config2 ->
  x s = x_initial ->
  let q := lit float 1 4 in
  let s1 := turns 4 s config1 q in
  let s2 := turns 4 s1 config2 q in
  exactly 4 s config1 q 1 s1 /\ x s1 = of_int clock_format 1 /\
  exactly 4 s1 config2 q 2 s2 /\ x s2 = of_int clock_format 2.
Proof.
  intros (Q1 & Q2 & Q3 & Q4 & Q5 & Q6) Hh Hs Hlen1 Hlen2 Hx q s1 s2.
  assert (X1 : x s1 = of_int clock_format 1).
  { unfold s1. rewrite turns_x, Hx. exact Q3. }
  assert (R1 : exactly 4 s config1 q 1 s1).
  { apply stepping_reaches; try assumption; rewrite Hx; assumption. }
  assert (Hwf : headless s1 = true /\ servos_size (env s1) = servos_size (env s)).
  { unfold s1. cbn [turns].
    rewrite !stepped_headless, !stepped_size. auto. }
  destruct Hwf as [Hh1 Hs1].
  assert (R2 : exactly 4 s1 config2 q 2 s2).
  { apply stepping_reaches; try assumption; rewrite ?X1; try assumption.
    - now rewrite Hs1.
    - unfold joint_groups in *. now rewrite Hs1. }
  repeat split; try apply R1; try apply R2; try assumption.
  unfold s2. rewrite turns_x, X1. exact Q6.
Qed.

End Calls.

(** C6, as amended.  The clock is never reset between calls on one object:
    every loop iteration replaces [x] by [x + step], and a call starts from
    the clock the call before it left - whatever the parameter vectors and the
    steps of the two calls.  So two calls that run [n1] and [n2] iterations
    leave the clock [n1] increments by the first step and [n2] by the second
    from where it was ([n1 + n2] increments when the steps are the same), and
    a further call with the limit of the first runs no iteration, whatever
    its vector and its step.  The loop runs while [x] is below the integer
    [step_limit]; for example, from clock zero with [step = 0.25], a call with
    limit 1 and a call on another vector with limit 2 run exactly four
    iterations each and leave the clock at 2 (not at 1 twice), in IEEE
    arithmetic (whether [x] is a [float] or a [double]) as in exact
    arithmetic. *)
Theorem C6_clock_accumulates :
  (forall (A : Arith) (P : Platform A) (n1 n2 : nat) (s s1 s2 : Simulation)
          (config1 config2 : list num) (step1 step2 : num) (limit1 limit2 : Z),
     exactly n1 s config1 step1 limit1 s1 ->
     exactly n2 s1 config2 step2 limit2 s2 ->
     x s1 = clock_after n1 (x s) step1 /\
     x s2 = clock_after n2 (x s1) step2 /\
     x s2 = clock_after n2 (clock_after n1 (x s) step1) step2 /\
     (step1 = step2 -> x s2 = clock_after (n1 + n2) (x s) step1) /\
     forall (config' : list num) (step' : num), exactly 0 s1 config' step' limit1 s1)
  /\
  (forall (P : Platform IEEE) (s : Simulation) (config1 config2 : list num),
     headless s = true ->
     4 <= servos_size (env s) ->
     3 * joint_groups s <= length config1 ->
     3 * joint_groups s <= length config2 ->
     x s = x_initial ->
     let q := lit float 1 4 in
     let s1 := turns 4 s config1 q in
     let s2 := turns 4 s1 config2 q in
     exactly 4 s config1 q 1 s1 /\ x s1 = of_int clock_format 1 /\
     exactly 4 s1 config2 q 2 s2 /\ x s2 = of_int clock_format 2)
  /\
  (forall (P : Platform Exact) (s : Simulation) (config1 config2 : list num),
     headless s = true ->
     4 <= servos_size (env s) ->
     3 * joint_groups s <= length config1 ->
     3 * joint_groups s <= length config2 ->
     x s = x_initial ->
     let q := lit float 1 4 in
     let s1 := turns 4 s config1 q in
     let s2 := turns 4 s1 config2 q in
     exactly 4 s config1 q 1 s1 /\ x s1 = of_int clock_format 1 /\
     exactly 4 s1 config2 q 2 s2 /\ x s2 = of_int clock_format 2).
Proof.
  split; [|split].
  - intros A P n1 n2 s s1 s2 config1 config2 step1 step2 limit1 limit2.
    apply consecutive_calls.
  - intros P s config1 config2. apply quarter_calls. apply quarters_IEEE.
  - intros P s config1 config2. apply quarter_calls. apply quarters_Exact.
Qed.

(** C6 as stated has no instance: the limit is an [int], and with
    [step = 0.01] no two limits make two calls in a row run exactly ten
    iterations each, on any platform, from any clock, for any two vectors,
    even in exact arithmetic (the two limits would have to differ by more
    than 0.09 and by less than 0.11). *)
Lemma C6_no_ten_and_ten :
  ~ exists (P : Platform Exact) (s s1 s2 : @Simulation Exact P)
           (config1 config2 : list (@num Exact)) (limit1 limit2 : Z),
      exactly 10 s config1 (1 / 100)%R limit1 s1 /\
      exactly 10 s1 config2 (1 / 100)%R limit2 s2.
Proof.
  intros (P & s & s1 & s2 & config1 & config2 & limit1 & limit2 & E1 & E2).
  destruct (exactly_clock E1) as (H1 & H1' & H1'').
  destruct (exactly_clock E2) as (H2 & H2' & H2'').
  specialize (H1'' 9 ltac:(lia)). specialize (H2'' 9 ltac:(lia)).
  rewrite H2, H1 in H2'. rewrite H1 in H1', H2''.
  rewrite !exact_clock_after in *.
  apply ExactR.ltb_false in H1', H2'. apply ExactR.ltb_true in H1'', H2''.
  cbn in H1', H2', H1'', H2''.
  assert (D1 : (IZR limit1 < IZR limit2)%R) by lra.
  assert (D2 : (IZR limit2 < IZR limit1 + 1)%R) by lra.
  apply lt_IZR in D1. rewrite <- plus_IZR in D2. apply lt_IZR in D2. lia.
Qed.

(** In the code's own arithmetic the clock of the example is not 0.2 either:
    twenty additions of [0.01f] to zero give 13421774 * 2^-26, the
    [float] next above [0.2f]. *)
Remark twenty_hundredths :
  @ticks IEEE float 20 (of_int float 0) (lit float 1 100) = S754_finite false 13421774 (-26) /\
  @lit IEEE float 2 10 = S754_finite false 13421773 (-26).
Proof. split; vm_compute; reflexivity. Qed.


(** ** On the benches *)

(** *** The robot of fourteen servos *)
Module Robot14.

#[local] Existing Instance Lab.robot14.

Lemma well_formed :
  4 <= servos_size (env Lab.sim14) /\ 3 * joint_groups Lab.sim14 <= length Lab.genes31.
Proof. cbn. lia. Qed.

Lemma below_threshold : ExactR.ltb (Lab.zero * (40 / 1)) (5 / 1) = true.
Proof. apply ExactR.ltb_true. unfold Lab.zero. lra. Qed.

Lemma ready :
  headless Lab.sim14 = true /\ 4 <= servos_size (env Lab.sim14) /\
  3 * joint_groups Lab.sim14 <= length Lab.genes31 /\
  x Lab.sim14 = x_initial.
Proof.
  destruct (@construct_fresh Exact Lab.robot14 0 Lab.zero 0 6 true) as (H1 & _ & H3 & _).
  split; [exact H1|]. split; [apply well_formed|].
  split; [apply well_formed | exact H3].
Qed.

(** C1 as stated fails at group 6.  After one step with all genes zero the
    first call of group 6 (the eleventh of the step) is on servo 6, and its
    angle is not the oscillation [a*tanh(h*sin((f*M_PI)*(x+theta))) + b] of
    the group's genes in radians: that is -20 * M_PI / 180, and the angle set
    is -20 * 1.8 * M_PI / 180. *)
Lemma C1_fails_at_group_6 :
  exists (s' : @Simulation Exact Lab.robot14) (a : @num Exact),
    procedure Lab.sim14 Lab.genes31 Lab.tick = Returns tt s' /\
    nth_error (journal s') 10 = Some (6%Z, a) /\
    a <> radians (oscillation (x s') (amplitude Lab.zero) (fmul Lab.zero (lit float 1 1))
                    (fsub (fmul Lab.zero (lit float 40 1)) (lit float 20 1))
                    (fmul Lab.zero (lit float 2 1)) (of_int float 4)).
Proof.
  exists (stepped Lab.sim14 Lab.genes31 Lab.tick).
  eexists. split; [|split].
  - apply (@procedure_returns Exact Lab.robot14); apply well_formed.
  - rewrite stepped_journal.
    change (journal Lab.sim14) with (@nil (Z * @num Exact)). rewrite app_nil_l.
    change (@joint_groups Exact Lab.robot14 Lab.sim14) with 10.
    cbv [calls seq flat_map group_calls Z.of_nat Z.leb Z.compare Pos.compare
         Pos.compare_cont Pos.of_succ_nat Pos.succ app nth_error].
    reflexivity.
  - rewrite stepped_x. unfold group_angle.
    cbv [Lab.genes31 repeat nth last Nat.mul Nat.add].
    unfold radians, emitted_phase, amplify, oscillation, amplitude.
    cbn. rewrite below_threshold. unfold Lab.zero, Lab.tick. lra.
Qed.

(** The hypotheses of C1 hold on this robot. *)
Lemma C1_witness :
  4 <= servos_size (env Lab.sim14) /\
  3 * joint_groups Lab.sim14 <= length Lab.genes31 /\
  exists s' : @Simulation Exact Lab.robot14,
    procedure Lab.sim14 Lab.genes31 Lab.tick = Returns tt s' /\
    x s' = add clock_format (x Lab.sim14) (cvt clock_format Lab.tick).
Proof.
  split; [apply well_formed|]. split; [apply well_formed|].
  destruct (@C1_phase_and_angle Exact Lab.robot14 Lab.sim14 Lab.genes31 Lab.tick
              (proj1 well_formed) (proj2 well_formed)) as (s' & H1 & H2 & _).
  exists s'. split; assumption.
Defined.

(** The hypotheses of C2 hold on this robot. *)
Lemma C2_witness :
  4 <= servos_size (env Lab.sim14) /\
  3 * joint_groups Lab.sim14 <= length Lab.genes31 /\
  exists s' : @Simulation Exact Lab.robot14,
    procedure Lab.sim14 Lab.genes31 Lab.tick = Returns tt s' /\
    journal s'
    = journal Lab.sim14
      ++ flat_map (group_calls (x s') Lab.genes31) (seq 0 (joint_groups Lab.sim14)).
Proof.
  split; [apply well_formed|]. split; [apply well_formed|].
  destruct (@C2_mirrored_joints Exact Lab.robot14 Lab.sim14 Lab.genes31 Lab.tick
              (proj1 well_formed) (proj2 well_formed)) as (s' & H1 & H2 & _).
  exists s'. split; assumption.
Defined.

(** C3 as stated fails at group 6: with all genes zero the amplitude is cut
    to zero and the bias is -20, but the phase emitted for group 6 is
    -20 * 1.8, not the bias. *)
Lemma C3_fails_at_group_6 :
  (Lab.zero * 40 < 5)%R /\
  emitted_phase Lab.tick 6 Lab.zero Lab.zero Lab.zero Lab.zero <> (Lab.zero * 40 - 20)%R.
Proof.
  split; [unfold Lab.zero; lra|].
  unfold emitted_phase, amplify, oscillation, amplitude.
  cbn. rewrite below_threshold. unfold Lab.zero, Lab.tick. lra.
Qed.

(** The hypothesis of C3 holds for a zero gene, in exact arithmetic. *)
Lemma C3_witness :
  (Lab.zero * 40 < 5)%R /\ @amplitude Exact Lab.zero = 0%R /\
  emitted_phase Lab.tick 0 Lab.zero Lab.zero Lab.zero Lab.zero = (Lab.zero * 40 - 20)%R.
Proof.
  assert (H : (Lab.zero * 40 < 5)%R) by (unfold Lab.zero; lra).
  split; [exact H|].
  destruct (proj1 C3_deadband Lab.robot14 Lab.tick Lab.zero Lab.zero Lab.zero Lab.zero
              0%Z H) as (H1 & _ & H3).
  split; [exact H1 | exact H3].
Defined.

(** C4 at work: the groups 6 and 0 of the vector of zeros have the same
    genes, and the step sets servo 6 to 1.8f times the phase of group 0, in
    radians. *)
Lemma C4_witness :
  4 <= servos_size (env Lab.sim14) /\
  3 * joint_groups Lab.sim14 <= length Lab.genes31 /\
  exists (s' : @Simulation Exact Lab.robot14) (p0 a6 : @num Exact),
    procedure Lab.sim14 Lab.genes31 Lab.tick = Returns tt s' /\
    group_calls (x s') Lab.genes31 0
    = [(0%Z, ddiv (dmul p0 M_PI) (of_int double 180))] /\
    group_calls (x s') Lab.genes31 6 = [(6%Z, a6); (10%Z, a6)] /\
    a6 = ddiv (dmul (dmul p0 (to_double (lit float 18 10))) M_PI) (of_int double 180).
Proof.
  split; [apply well_formed|]. split; [apply well_formed|].
  destruct (@C4_outer_amplification Exact Lab.robot14 Lab.sim14 Lab.genes31 Lab.tick
              (proj1 well_formed) (proj2 well_formed)) as (s' & H1 & _ & H3 & H4).
  exists s'. eexists. eexists. split; [exact H1|].
  destruct (H4 6 0 ltac:(cbn; lia) ltac:(cbn; lia) eq_refl eq_refl eq_refl eq_refl eq_refl)
    as (E0 & E6).
  split; [|split].
  - destruct (H3 0 ltac:(cbn; lia)) as [H | H]; [|discriminate H].
    rewrite H. cbv beta iota zeta delta [Nat.eqb orb]. reflexivity.
  - destruct (H3 6 ltac:(cbn; lia)) as [H | H]; [discriminate H|].
    exact H.
  - cbv beta iota zeta delta [Nat.eqb orb]. reflexivity.
Defined.

(** The example of C6 on this robot, the second call on another vector and,
    after it, a call with another step and the first limit. *)
Lemma C6_witness :
  exists s1 s2 : @Simulation Exact Lab.robot14,
    exactly 4 Lab.sim14 Lab.genes31 (lit float 1 4) 1 s1 /\
    exactly 4 s1 Lab.halves31 (lit float 1 4) 2 s2 /\
    x s2 = 2%R /\
    x s2 = clock_after 8 (x Lab.sim14) (lit float 1 4) /\
    exactly 0 s1 Lab.halves31 Lab.tick 1 s1.
Proof.
  destruct ready as (Hh & Hs & Hlen & Hx).
  assert (Hlen2 : 3 * joint_groups Lab.sim14 <= length Lab.halves31) by (cbn; lia).
  destruct (proj2 (proj2 C6_clock_accumulates) Lab.robot14 Lab.sim14 Lab.genes31
              Lab.halves31 Hh Hs Hlen Hlen2 Hx) as (E1 & _ & E2 & X2).
  destruct (proj1 C6_clock_accumulates Exact Lab.robot14 4 4 _ _ _ _ _ _ _ _ _ E1 E2)
    as (_ & _ & _ & X8 & E0).
  eexists. eexists. split; [exact E1|]. split; [exact E2|]. split; [exact X2|].
  split; [exact (X8 eq_refl) | exact (E0 Lab.halves31 Lab.tick)].
Defined.

(** C7 at work: two obstacles for a count of two. *)
Lemma C7_witness :
  exists b1 b2 : @Box Exact,
    boxes (add_blocks 0 2 6 Lab.sim14) = boxes Lab.sim14 ++ [b1; b2] /\
    fixed b1 = true /\ width b2 = fmul (height b2) (of_int float 4) /\
    rotation b2 = (lit float 0 1, opp (tilt Lab.sim14), lit float 0 1).
Proof.
  destruct (@C7_obstacle_geometry Exact Lab.robot14 0 2 6 Lab.sim14) as (H1 & H2 & _).
  eexists. eexists. split; [exact H1|].
  destruct (H2 (Nat.iter 0 (next_engine 6) (mt19937 0)))
    as (_ & _ & _ & _ & _ & _ & _ & F1).
  destruct (H2 (Nat.iter 1 (next_engine 6) (mt19937 0)))
    as (_ & _ & W2 & _ & _ & _ & R2 & _).
  split; [exact F1|]. split; [exact W2 | exact R2].
Defined.


End Robot14.

(** *** The robot of five servos *)
Module Robot5.

#[local] Existing Instance Lab.robot5.

Lemma one_group : 4 <= servos_size (env Lab.sim5) /\ joint_groups Lab.sim5 = 1.
Proof. cbn. lia. Qed.

(** C8 as stated fails on this robot, whose vector should hold 3 * 1 + 1
    genes.  A vector of three genes is too short, and one step reads nothing
    out of bounds: it returns.  The empty vector is too short, and one step
    ends in the exception of [at], which is defined behaviour. *)
Lemma C8_short_vectors_are_checked :
  length Lab.genes3 < 3 * joint_groups Lab.sim5 + 1 /\
  procedure Lab.sim5 Lab.genes3 Lab.tick
  = Returns tt (stepped Lab.sim5 Lab.genes3 Lab.tick) /\
  exists s' : @Simulation Exact Lab.robot5,
    procedure Lab.sim5 (@nil (@num Exact)) Lab.tick = Throws s' /\
    x s' = add clock_format (x Lab.sim5) (cvt clock_format Lab.tick).
Proof.
  split; [cbn; lia|]. split.
  - apply (@procedure_returns Exact Lab.robot5); cbn; lia.
  - eexists. split.
    + apply (@procedure_throws Exact Lab.robot5); cbn; lia.
    + now rewrite emits_x.
Qed.

(** The hypotheses of C8 hold on this robot with four genes. *)
Lemma C8_witness :
  4 <= servos_size (env Lab.sim5) /\
  3 * joint_groups Lab.sim5 + 1 <= length Lab.genes4 /\
  procedure Lab.sim5 Lab.genes4 Lab.tick
  = Returns tt (stepped Lab.sim5 Lab.genes4 Lab.tick).
Proof.
  split; [apply one_group|]. split; [cbn; lia|].
  apply (proj1 (@C8_vector_length Exact Lab.robot5 Lab.sim5 Lab.genes4 Lab.tick
                  (proj1 one_group))).
  cbn. lia.
Defined.

End Robot5.

(** *** The robot of four servos, in IEEE arithmetic *)
Module Robot4.




(** The particular case of C5 in IEEE arithmetic: a position of 3.2 gives
    the [float] -3.2f. *)
Remark minus_three_point_two :
  @to_float IEEE (opp (lit double 32 10)) = lit float (-32) 10.
Proof. vm_compute. reflexivity. Qed.

Lemma far_run :
  exists s' : @Simulation IEEE Rig.far4,
    @run_conf IEEE Rig.far4 2 Rig.sim_far Rig.gene Rig.half 1
    = Some (Returns (fitness s') s') /\
    fst (fst (pos (env s'))) = lit double 32 10.
Proof.
  destruct (@construct_fresh IEEE Rig.far4 0 (S754_zero false) 0 6 true)
    as (Hh & _ & Hx & _).
  fold Rig.sim_far in Hh, Hx.
  assert (Hs : 4 <= @servos_size IEEE Rig.far4 (env Rig.sim_far)) by (cbn; lia).
  assert (Hlen : 3 * @joint_groups IEEE Rig.far4 Rig.sim_far <= length Rig.gene)
    by (cbn; lia).
  destruct (@stepping_reaches IEEE Rig.far4 2 Rig.sim_far Rig.gene Rig.half 1
              Hh Hs Hlen) as ((E & _) & _).
  { intros j Hj. rewrite Hx.
    destruct j as [|[|j]]; [vm_compute; reflexivity .. | lia]. }
  { rewrite Hx. vm_compute. reflexivity. }
  eexists. split; [unfold run_conf; now rewrite E | reflexivity].
Qed.

(** C5 as stated fails: the value returned is not exactly the negated
    position.  The robot stands at x = 3.2, a [double]; a run of two steps
    of a half returns, and what it returns differs from -3.2: it is the
    [float] nearest to it, -13421773 * 2^-22. *)
Lemma C5_fitness_is_rounded :
  exists (f : @num IEEE) (s' : @Simulation IEEE Rig.far4),
    @run_conf IEEE Rig.far4 2 Rig.sim_far Rig.gene Rig.half 1 = Some (Returns f s') /\
    fst (fst (pos (env s'))) = lit double 32 10 /\
    f <> opp (fst (fst (pos (env s')))).
Proof.
  destruct far_run as (s' & R & Hp).
  exists (fitness s'), s'. split; [exact R|]. split; [exact Hp|].
  unfold fitness. rewrite Hp. vm_compute. discriminate.
Qed.

(** C5 at work in IEEE arithmetic: the same run returns -3.2f. *)
Lemma C5_witness :
  exists (f : @num IEEE) (s' : @Simulation IEEE Rig.far4),
    @run_conf IEEE Rig.far4 2 Rig.sim_far Rig.gene Rig.half 1 = Some (Returns f s') /\
    fst (fst (pos (env s'))) = lit double 32 10 /\
    f = lit float (-32) 10.
Proof.
  destruct far_run as (s' & R & Hp).
  exists (fitness s'), s'. split; [exact R|]. split; [exact Hp|].
  exact (proj1 (proj2 (proj2 C5_fitness_is_negated_x) Rig.far4 2 Rig.sim_far Rig.gene
                  Rig.half 1%Z (fitness s') s' R Hp)).
Defined.

End Robot4.

(** * More of simulation.cpp *)

(** ** The terrain and the world: [add_blocks] and the constructor *)

Section Terrain.

Context {A : Arith} {P : Platform A}.

Lemma drawn_fixed size tlt g :
  fixed (drawn size tlt g) = true /\
  rotation (drawn size tlt g) = (lit float 0 1, opp tlt, lit float 0 1).
Proof. split; reflexivity. Qed.

Lemma add_blocks_members (now count size : Z) (s : Simulation) :
  exists new : list Box,
    boxes (add_blocks now count size s) = boxes s ++ new /\
    length new = Z.to_nat count /\
    env (add_blocks now count size s) = fold_left (registered (headless s)) new (env s) /\
    Forall (fun b => fixed b = true /\
                     rotation b = (lit float 0 1, opp (tilt s), lit float 0 1)) new /\
    headless (add_blocks now count size s) = headless s /\
    tilt (add_blocks now count size s) = tilt s /\
    x (add_blocks now count size s) = x s /\
    journal (add_blocks now count size s) = journal s.
Proof.
  unfold add_blocks.
  destruct (iter_add_block_boxes size (Z.to_nat count) (s, mt19937 now)) as (Hb & _).
  destruct (iter_add_block_members size (Z.to_nat count) (s, mt19937 now))
    as (Hh & Ht & Hx & Hj).
  pose proof (iter_add_block_env size (Z.to_nat count) (s, mt19937 now)) as He.
  cbn [fst snd] in *.
  eexists. split; [exact Hb|].
  split; [now rewrite length_map, length_seq|].
  split; [exact He|].
  split.
  - apply Forall_forall. intros b Hin. apply in_map_iff in Hin.
    destruct Hin as (k & <- & _). apply drawn_fixed.
  - repeat split; assumption.
Qed.

(** X1.  [add_blocks] keeps the world and the list [boxes] in step.  The
    obstacles it appends to [boxes] - as many as [count], none when [count]
    is not positive - are the ones the world receives, in the same order: each
    is shown to the viewer, not yet fixed, unless the run is headless, and
    then added to the ground, fixed and turned by [-tilt].  Nothing else of
    the object changes, and a count that is not positive leaves the object as
    it was. *)
Theorem add_blocks_registers (now count size : Z) (s : Simulation) :
  (exists new : list Box,
     boxes (add_blocks now count size s) = boxes s ++ new /\
     length new = Z.to_nat count /\
     env (add_blocks now count size s) = fold_left (registered (headless s)) new (env s) /\
     Forall (fun b => fixed b = true /\
                      rotation b = (lit float 0 1, opp (tilt s), lit float 0 1)) new /\
     headless (add_blocks now count size s) = headless s /\
     tilt (add_blocks now count size s) = tilt s /\
     x (add_blocks now count size s) = x s /\
     journal (add_blocks now count size s) = journal s) /\
  ((count <= 0)%Z -> add_blocks now count size s = s).
Proof.
  split; [apply add_blocks_members|].
  intro Hc. unfold add_blocks. replace (Z.to_nat count) with 0 by lia. reflexivity.
Qed.

(** X2.  The constructor.  The world of a new simulation is the robot's clone in
    an environment tilted by [tilt] about the second axis, the viewer attached
    to the robot unless headless, with exactly the obstacles of [boxes]
    registered in their order; every obstacle is fixed and turned by [-tilt]
    about that same axis; the clock is at its initial value and no servo has
    been set. *)
Theorem construct_registers (now : Z) (tlt : num) (count size : Z) (hl : bool) :
  let s := construct now tlt count size hl in
  let w := clone (Environment (lit float 0 1) tlt (lit float 0 1)) in
  env s = fold_left (registered hl) (boxes s) (if hl then w else accept_robot w) /\
  length (boxes s) = Z.to_nat count /\
  Forall (fun b => fixed b = true /\
                   rotation b = (lit float 0 1, opp tlt, lit float 0 1)) (boxes s) /\
  headless s = hl /\ tilt s = tlt /\ x s = x_initial /\ journal s = [].
Proof.
  intros s w. unfold s, construct. fold w.
  match goal with |- context [add_blocks now count size ?s0] =>
    destruct (add_blocks_members now count size s0)
      as (new & Hb & Hl & He & Hf & Hh & Ht & Hx & Hj) end.
  cbn [boxes env headless tilt x journal app] in *.
  rewrite Hb, He, Hh, Ht, Hx, Hj. repeat split; assumption.
Qed.

End Terrain.

(** ** Which servo is set, how often, and by whom: the loop of [procedure] *)

Section Servos.

Context {A : Arith} {P : Platform A}.

Lemma calls_S clock data n :
  calls clock data 0 (S n) = calls clock data 0 n ++ group_calls clock data n.
Proof. unfold calls. rewrite seq_S, flat_map_app. cbn. now rewrite app_nil_r. Qed.

Lemma calls_app clock data n m :
  calls clock data 0 (n + m) = calls clock data 0 n ++ calls clock data n m.
Proof. unfold calls. now rewrite seq_app, flat_map_app. Qed.

Lemma group_calls_range clock data k c :
  In c (group_calls clock data k) -> (0 <= fst c < Z.of_nat k + 5)%Z.
Proof.
  unfold group_calls. destruct (Z.of_nat k <=? 1)%Z; simpl; intros H.
  - destruct H as [<- | []]; cbn; lia.
  - destruct H as [<- | [<- | []]]; cbn; lia.
Qed.

Lemma calls_range clock data n c :
  In c (calls clock data 0 n) -> (0 <= fst c < Z.of_nat n + 4)%Z.
Proof.
  unfold calls. intro H. apply in_flat_map in H. destruct H as (k & Hk & Hc).
  apply in_seq in Hk. apply group_calls_range in Hc. lia.
Qed.

Lemma length_group_calls clock data k :
  length (group_calls clock data k) = if k <=? 1 then 1 else 2.
Proof.
  unfold group_calls.
  destruct (Nat.leb_spec k 1);
    [replace (Z.of_nat k <=? 1)%Z with true by (symmetry; apply Z.leb_le; lia)
    |replace (Z.of_nat k <=? 1)%Z with false by (symmetry; apply Z.leb_gt; lia)];
    reflexivity.
Qed.

Lemma length_calls clock data n :
  length (calls clock data 0 n) = n + (n - 2).
Proof.
  induction n as [|n IH]; [reflexivity|].
  rewrite calls_S, length_app, IH, length_group_calls.
  destruct (Nat.leb_spec n 1); lia.
Qed.

(** The servos of the calls of the groups [k0], ..., in order. *)
Lemma servos_of_calls clock data n k0 :
  map fst (calls clock data k0 n)
  = flat_map (fun k => if k <=? 1 then [Z.of_nat k] else [Z.of_nat k; (Z.of_nat k + 4)%Z])
      (seq k0 n).
Proof.
  unfold calls. generalize (seq k0 n) as ks.
  induction ks as [|k ks IH]; [reflexivity|].
  cbn [flat_map]. rewrite map_app, IH. f_equal.
  unfold group_calls.
  destruct (Nat.leb_spec k 1);
    [replace (Z.of_nat k <=? 1)%Z with true by (symmetry; apply Z.leb_le; lia)
    |replace (Z.of_nat k <=? 1)%Z with false by (symmetry; apply Z.leb_gt; lia)];
    reflexivity.
Qed.

Lemma calls_once clock data n :
  NoDup (map fst (calls clock data 0 n)) <-> n <= 6.
Proof.
  split.
  - intro H. destruct (Nat.le_gt_cases n 6) as [Hn | Hn]; [exact Hn | exfalso].
    replace n with (7 + (n - 7)) in H by lia.
    rewrite calls_app, map_app in H. apply NoDup_app_remove_r in H.
    rewrite servos_of_calls in H. cbn in H.
    do 3 (apply NoDup_cons_iff in H; destruct H as [_ H]).
    apply NoDup_cons_iff in H. destruct H as [H _].
    apply H. cbn. tauto.
  - intro Hn. rewrite servos_of_calls.
    do 7 (destruct n as [|n]; [cbn; repeat constructor; cbn; intuition discriminate|]).
    lia.
Qed.

Lemma last_call_from (j : Z) (cs : list (Z * num)) : forall acc : option num,
  fold_left (fun acc c => if (fst c =? j)%Z then Some (snd c) else acc) cs acc
  = match last_call j cs with Some a => Some a | None => acc end.
Proof.
  unfold last_call. induction cs as [|c cs IH]; intro acc; [reflexivity|].
  cbn [fold_left]. rewrite IH. rewrite (IH (if (fst c =? j)%Z then _ else None)).
  destruct (fold_left _ cs None); [reflexivity|].
  destruct (fst c =? j)%Z; reflexivity.
Qed.

Lemma last_call_app (j : Z) (l1 l2 : list (Z * num)) :
  last_call j (l1 ++ l2)
  = match last_call j l2 with Some a => Some a | None => last_call j l1 end.
Proof. unfold last_call at 1. rewrite fold_left_app. apply last_call_from. Qed.

Lemma last_call_group clock data k (j : nat) :
  last_call (Z.of_nat j) (group_calls clock data k)
  = if (j =? k) || ((2 <=? k) && (j =? k + 4)) then Some (group_angle clock data k)
    else None.
Proof.
  unfold group_calls, last_call.
  destruct (Z.leb_spec (Z.of_nat k) 1); cbn [fold_left fst snd].
  - replace (2 <=? k) with false by (symmetry; apply Nat.leb_gt; lia).
    rewrite andb_false_l, orb_false_r.
    destruct (Nat.eqb_spec j k) as [-> | Hjk].
    + now rewrite Z.eqb_refl.
    + replace (Z.of_nat k =? Z.of_nat j)%Z with false
        by (symmetry; apply Z.eqb_neq; lia).
      reflexivity.
  - replace (2 <=? k) with true by (symmetry; apply Nat.leb_le; lia).
    rewrite andb_true_l.
    destruct (Nat.eqb_spec j (k + 4)) as [-> | Hj4].
    + replace (Z.of_nat k + 4 =? Z.of_nat (k + 4))%Z with true
        by (symmetry; apply Z.eqb_eq; lia).
      now rewrite orb_true_r.
    + replace (Z.of_nat k + 4 =? Z.of_nat j)%Z with false
        by (symmetry; apply Z.eqb_neq; lia).
      rewrite orb_false_r.
      destruct (Nat.eqb_spec j k) as [-> | Hjk].
      * now rewrite Z.eqb_refl.
      * replace (Z.of_nat k =? Z.of_nat j)%Z with false
          by (symmetry; apply Z.eqb_neq; lia).
        reflexivity.
Qed.

(** Whose angle a servo is left with by the calls of the first [n] groups. *)
Lemma last_call_calls clock data n (j : nat) :
  last_call (Z.of_nat j) (calls clock data 0 n)
  = if j <? n then Some (group_angle clock data j)
    else if (6 <=? j) && (j <? n + 4) then Some (group_angle clock data (j - 4))
    else None.
Proof.
  induction n as [|n IH].
  - change (last_call (Z.of_nat j) (calls clock data 0 0)) with (@None num).
    destruct (Nat.ltb_spec j 0); [lia|].
    destruct (Nat.leb_spec 6 j), (Nat.ltb_spec j (0 + 4)); try reflexivity. lia.
  - rewrite calls_S, last_call_app, last_call_group, IH.
    destruct (Nat.eqb_spec j n) as [-> | Hjn].
    + cbn [orb]. replace (n <? S n) with true by (symmetry; apply Nat.ltb_lt; lia).
      reflexivity.
    + cbn [orb].
      destruct (Nat.leb_spec 2 n) as [H2 | H2]; cbn [andb].
      * destruct (Nat.eqb_spec j (n + 4)) as [-> | Hj4].
        -- replace (n + 4 <? S n) with false by (symmetry; apply Nat.ltb_ge; lia).
           replace (6 <=? n + 4) with true by (symmetry; apply Nat.leb_le; lia).
           replace (n + 4 <? S n + 4) with true by (symmetry; apply Nat.ltb_lt; lia).
           cbn [andb]. do 2 f_equal. lia.
        -- destruct (Nat.ltb_spec j n), (Nat.ltb_spec j (S n)); try lia; try reflexivity.
           destruct (Nat.leb_spec 6 j); cbn [andb]; [|reflexivity].
           destruct (Nat.ltb_spec j (n + 4)), (Nat.ltb_spec j (S n + 4));
             try lia; reflexivity.
      * destruct (Nat.ltb_spec j n), (Nat.ltb_spec j (S n)); try lia; try reflexivity.
        destruct (Nat.leb_spec 6 j); cbn [andb]; [|reflexivity].
        destruct (Nat.ltb_spec j (n + 4)), (Nat.ltb_spec j (S n + 4));
          try lia; reflexivity.
Qed.

(** X3.  On a robot with its four trailing servos [procedure] never leaves the
    vector of servos, whatever the parameter vector: one step ends by return
    or by the exception of [at], never in undefined behaviour and never in
    [exit], and every [set_angle] call it made was on a servo the robot
    has. *)
Theorem procedure_stays_in_range (s : Simulation) (data : list num) (step : num) :
  4 <= servos_size (env s) ->
  exists (s' : Simulation) (cs : list (Z * num)),
    (procedure s data step = Returns tt s' \/ procedure s data step = Throws s') /\
    journal s' = journal s ++ cs /\
    Forall (fun c => (0 <= fst c < Z.of_nat (servos_size (env s)))%Z) cs.
Proof.
  intro Hs.
  destruct (Nat.le_gt_cases (3 * joint_groups s) (length data)) as [Hlen | Hlen].
  - exists (stepped s data step). eexists.
    split; [left; now apply procedure_returns|].
    split; [apply stepped_journal|].
    apply Forall_forall. intros c Hc. apply calls_range in Hc.
    unfold joint_groups in Hc. lia.
  - eexists. eexists.
    split; [right; now apply procedure_throws|].
    split; [rewrite emits_journal; reflexivity|].
    apply Forall_forall. intros c Hc. apply calls_range in Hc.
    assert (Hk : length data / 3 < joint_groups s)
      by (apply Nat.Div0.div_lt_upper_bound; lia).
    unfold joint_groups in Hk. lia.
Qed.

(** X4.  How many calls one step makes, and on which robots no servo is set
    twice.  A step that returns on a robot of [n] joint groups makes [n]
    [set_angle] calls when [n <= 2] and [2n - 2] otherwise; the servos of
    these calls are pairwise distinct exactly when the robot has at most six
    joint groups (ten servos). *)
Theorem calls_of_a_step (s : Simulation) (data : list num) (step : num) :
  4 <= servos_size (env s) ->
  3 * joint_groups s <= length data ->
  exists (s' : Simulation) (cs : list (Z * num)),
    procedure s data step = Returns tt s' /\
    journal s' = journal s ++ cs /\
    length cs = joint_groups s + (joint_groups s - 2) /\
    (NoDup (map fst cs) <-> joint_groups s <= 6).
Proof.
  intros Hs Hlen. exists (stepped s data step). eexists.
  split; [now apply procedure_returns|].
  split; [apply stepped_journal|].
  split; [apply length_calls | apply calls_once].
Qed.

(** X5.  With which angle a step leaves every servo.  After a step that returns
    on a robot of [n] joint groups, the latest call on servo [j] carries: the
    angle of group [j] itself when [j < n] - for [6 <= j] this replaces the
    mirrored angle that group [j - 4] has set on the same servo earlier in the
    step; the angle of group [j - 4] when [n <= j < n + 4] and [6 <= j]; and
    there is no call at all on the servos [n <= j < 6], which a robot of fewer
    than six joint groups has. *)
Theorem latest_call_on_a_servo (s : Simulation) (data : list num) (step : num) :
  4 <= servos_size (env s) ->
  3 * joint_groups s <= length data ->
  exists (s' : Simulation) (cs : list (Z * num)),
    procedure s data step = Returns tt s' /\
    journal s' = journal s ++ cs /\
    (forall j : nat, j < joint_groups s ->
       last_call (Z.of_nat j) cs = Some (group_angle (x s') data j)) /\
    (forall j : nat, 6 <= j < joint_groups s ->
       In (Z.of_nat j, group_angle (x s') data (j - 4)) cs) /\
    (forall j : nat, joint_groups s <= j < joint_groups s + 4 -> 6 <= j ->
       last_call (Z.of_nat j) cs = Some (group_angle (x s') data (j - 4))) /\
    (forall j : nat, joint_groups s <= j < 6 -> last_call (Z.of_nat j) cs = None).
Proof.
  intros Hs Hlen. exists (stepped s data step). eexists.
  split; [now apply procedure_returns|].
  split; [apply stepped_journal|].
  rewrite stepped_x.
  set (clock := add clock_format (x s) (cvt clock_format step)).
  split; [|split; [|split]]; intros j Hj.
  - rewrite last_call_calls.
    replace (j <? joint_groups s) with true by (symmetry; apply Nat.ltb_lt; lia).
    reflexivity.
  - unfold calls. apply in_flat_map. exists (j - 4). split; [apply in_seq; lia|].
    unfold group_calls.
    replace (Z.of_nat (j - 4) <=? 1)%Z with false by (symmetry; apply Z.leb_gt; lia).
    right. left. f_equal. lia.
  - intro H6. rewrite last_call_calls.
    replace (j <? joint_groups s) with false by (symmetry; apply Nat.ltb_ge; lia).
    replace (6 <=? j) with true by (symmetry; apply Nat.leb_le; lia).
    replace (j <? joint_groups s + 4) with true by (symmetry; apply Nat.ltb_lt; lia).
    reflexivity.
  - rewrite last_call_calls.
    replace (j <? joint_groups s) with false by (symmetry; apply Nat.ltb_ge; lia).
    replace (6 <=? j) with false by (symmetry; apply Nat.leb_gt; lia).
    reflexivity.
Qed.

End Servos.

(** ** A robot without its four trailing servos *)

Section FewServos.

Context {A : Arith} {P : Platform A}.

(** [size() - 4] wraps in [size_t]: the loop is set for some 2^64 turns. *)
Lemma groups_wrap (size : nat) : size < 4 -> 3 <= Z.to_nat (groups size).
Proof.
  intro H. unfold groups.
  rewrite <- (Z_mod_plus_full (Z.of_nat size - 4) 1 (2 ^ 64)).
  change (2 ^ 64)%Z with 18446744073709551616%Z.
  rewrite Z.mod_small by lia. lia.
Qed.

Lemma servo_set_past_end j a s :
  (Z.of_nat (servos_size (env s)) <= j)%Z -> servo_set j a s = None.
Proof. intro H. unfold servo_set. apply Z.ltb_ge in H. now rewrite H. Qed.

(** The loop at group [i], two or fewer groups before group 2, with turns
    left to reach it: it does not come back by return. *)
Lemma joints_few (data : list num) : forall m n i g s,
  (i + Z.of_nat m = 2)%Z -> (0 <= i)%Z -> m < n ->
  servos_size (env s) < 4 ->
  forall u s', joints n i g data s <> Returns u s'.
Proof.
  induction m as [|m IH]; intros n i g s Hi H0 Hn Hs u s';
    (destruct n as [|n]; [lia|]); cbn [joints];
    (destruct (nth_error data g); [|discriminate]);
    (destruct (nth_error data (g + 1)); [|discriminate]);
    (destruct (nth_error data (g + 2)); [|discriminate]);
    (destruct (back data); [|discriminate]).
  - replace (i <=? 1)%Z with false by (symmetry; apply Z.leb_gt; lia).
    destruct (servo_set i _ s) as [s1|] eqn:E1; [|discriminate].
    apply servo_set_kept in E1. destruct E1 as (_ & _ & E1).
    rewrite servo_set_past_end by lia. discriminate.
  - replace (i <=? 1)%Z with true by (symmetry; apply Z.leb_le; lia).
    destruct (servo_set i _ s) as [s1|] eqn:E1; [|discriminate].
    apply servo_set_kept in E1. destruct E1 as (_ & _ & E1).
    apply (IH n (i + 1)%Z (g + 3) s1); lia.
Qed.

(** The same loop on a vector of nine genes or more. *)
Lemma joints_few_undefined (data : list num) : forall m n i s,
  (i + Z.of_nat m = 2)%Z -> (0 <= i)%Z -> m < n ->
  servos_size (env s) < 4 ->
  9 <= length data ->
  joints n i (3 * Z.to_nat i) data s = Undefined.
Proof.
  induction m as [|m IH]; intros n i s Hi H0 Hn Hs Hlen;
    (destruct n as [|n]; [lia|]); cbn [joints];
    (destruct (nth_error data (3 * Z.to_nat i)) eqn:G0;
       [|apply nth_error_None in G0; lia]);
    (destruct (nth_error data (3 * Z.to_nat i + 1)) eqn:G1;
       [|apply nth_error_None in G1; lia]);
    (destruct (nth_error data (3 * Z.to_nat i + 2)) eqn:G2;
       [|apply nth_error_None in G2; lia]);
    (destruct (back data); [|reflexivity]).
  - replace (i <=? 1)%Z with false by (symmetry; apply Z.leb_gt; lia).
    destruct (servo_set i _ s) as [s1|] eqn:E1; [|reflexivity].
    apply servo_set_kept in E1. destruct E1 as (_ & _ & E1).
    rewrite servo_set_past_end by lia. reflexivity.
  - replace (i <=? 1)%Z with true by (symmetry; apply Z.leb_le; lia).
    destruct (servo_set i _ s) as [s1|] eqn:E1; [|reflexivity].
    apply servo_set_kept in E1. destruct E1 as (_ & _ & E1).
    replace (3 * Z.to_nat i + 3) with (3 * Z.to_nat (i + 1)) by lia.
    apply (IH n (i + 1)%Z s1); lia.
Qed.

(** X6.  On a robot of fewer than four servos the bound [servos().size() - 4] of
    the loop wraps around, and no step comes back by return: it ends in the
    exception of [at] or in undefined behaviour, and in undefined behaviour -
    an index past the end of the vector of servos - as soon as the vector
    holds nine genes. *)
Theorem too_few_servos (s : Simulation) (data : list num) (step : num) :
  servos_size (env s) < 4 ->
  (forall (u : unit) (s' : Simulation), procedure s data step <> Returns u s') /\
  (9 <= length data -> procedure s data step = Undefined).
Proof.
  intro Hs. rewrite procedure_joints.
  pose proof (advanced_size s step) as Ha.
  assert (Hg : 3 <= Z.to_nat (groups (servos_size (env (advanced s step)))))
    by (apply groups_wrap; lia).
  split.
  - intros u s'. apply (@joints_few data 2); lia.
  - intro Hlen.
    apply (@joints_few_undefined data 2 _ 0%Z (advanced s step)); lia.
Qed.

End FewServos.

(** ** How a call of [run_conf] can end, and what it leaves *)

Section Runs.

Context {A : Arith} {P : Platform A}.

Lemma follows_refl s : follows s s.
Proof. repeat split. exists []. now rewrite app_nil_r. Qed.

Lemma follows_trans s1 s2 s3 : follows s1 s2 -> follows s2 s3 -> follows s1 s3.
Proof.
  intros (H1 & H2 & H3 & H4 & cs & H5) (K1 & K2 & K3 & K4 & ds & K5).
  repeat split; try congruence.
  exists (cs ++ ds). now rewrite K5, H5, app_assoc.
Qed.

Lemma servo_set_follows j a s s' : servo_set j a s = Some s' -> follows s s'.
Proof.
  unfold servo_set. destruct (j <? _)%Z; [|discriminate].
  intros [= <-]. repeat split; cbn; [apply set_angle_size | now eexists].
Qed.

Lemma joints_follows (data : list num) : forall n i g s s',
  left_behind (joints n i g data s) = Some s' -> follows s s'.
Proof.
  induction n as [|n IH]; intros i g s s'; cbn [joints].
  - intros [= <-]. apply follows_refl.
  - destruct (nth_error data g); [|intros [= <-]; apply follows_refl].
    destruct (nth_error data (g + 1)); [|intros [= <-]; apply follows_refl].
    destruct (nth_error data (g + 2)); [|intros [= <-]; apply follows_refl].
    destruct (back data); [|discriminate].
    destruct (i <=? 1)%Z.
    + destruct (servo_set i _ s) as [s1|] eqn:E1; [|discriminate].
      intro H. apply (follows_trans (servo_set_follows _ _ _ E1)).
      exact (IH _ _ _ _ H).
    + destruct (servo_set i _ s) as [s1|] eqn:E1; [|discriminate].
      destruct (servo_set (i + 4) _ s1) as [s2|] eqn:E2; [|discriminate].
      intro H. apply (follows_trans (servo_set_follows _ _ _ E1)).
      apply (follows_trans (servo_set_follows _ _ _ E2)).
      exact (IH _ _ _ _ H).
Qed.

Lemma procedure_follows s data step s' :
  left_behind (procedure s data step) = Some s' -> follows s s'.
Proof.
  rewrite procedure_joints. intro H. apply joints_follows in H.
  refine (follows_trans _ H).
  repeat split; [apply advanced_size | exists []; cbn; now rewrite app_nil_r].
Qed.

Lemma stepping_follows config step step_limit : forall fuel s o s',
  stepping fuel s config step step_limit = Some o ->
  left_behind o = Some s' -> follows s s'.
Proof.
  induction fuel as [|fuel IH]; intros s o s'; cbn [stepping];
    (destruct (ltb (x s) (of_int clock_format step_limit));
       [|intros [= <-] [= <-]; apply follows_refl]).
  - discriminate.
  - destruct (negb (headless s) && v_done (env s)); [intros [= <-]; discriminate|].
    destruct (procedure s config step) as [[] s1 | s1 | |] eqn:Ep.
    + intros H1 H2. refine (follows_trans _ (IH _ _ _ H1 H2)).
      apply (@procedure_follows s config step). now rewrite Ep.
    + intros [= <-] [= <-]. apply (@procedure_follows s config step). now rewrite Ep.
    + intros [= <-]; discriminate.
    + intros [= <-]; discriminate.
Qed.

Lemma stepping_left config step step_limit : forall fuel s u s',
  stepping fuel s config step step_limit = Some (Returns u s') ->
  ltb (x s') (of_int clock_format step_limit) = false.
Proof.
  induction fuel as [|fuel IH]; intros s u s'; cbn [stepping];
    (destruct (ltb (x s) (of_int clock_format step_limit)) eqn:El;
       [|now intros [= _ <-]]).
  - discriminate.
  - destruct (negb (headless s) && v_done (env s)); [discriminate|].
    destruct (procedure s config step) as [[] s1 | s1 | |]; try discriminate.
    apply IH.
Qed.

Lemma stepping_ends config step step_limit : forall fuel s,
  4 <= servos_size (env s) ->
  match stepping fuel s config step step_limit with
  | Some Undefined => False
  | Some Exits => headless s = false
  | Some (Throws _) => length config < 3 * joint_groups s
  | _ => True
  end.
Proof.
  induction fuel as [|fuel IH]; intros s Hs; cbn [stepping];
    (destruct (ltb (x s) (of_int clock_format step_limit)); [|exact I]).
  - exact I.
  - destruct (headless s) eqn:Eh; cbn [negb andb].
    + destruct (Nat.le_gt_cases (3 * joint_groups s) (length config)) as [Hlen | Hlen].
      * rewrite procedure_returns by assumption.
        specialize (IH (stepped s config step)).
        rewrite stepped_size, stepped_headless in IH. unfold joint_groups in *.
        rewrite stepped_size in IH. specialize (IH Hs).
        destruct (stepping fuel (stepped s config step) config step step_limit)
          as [[[] s1 | s1 | |]|]; try exact I; try exact IH. congruence.
      * rewrite procedure_throws by assumption. exact Hlen.
    + destruct (v_done (env s)); [reflexivity|].
      destruct (Nat.le_gt_cases (3 * joint_groups s) (length config)) as [Hlen | Hlen].
      * rewrite procedure_returns by assumption.
        specialize (IH (stepped s config step)).
        rewrite stepped_size, stepped_headless in IH. unfold joint_groups in *.
        rewrite stepped_size in IH. specialize (IH Hs).
        destruct (stepping fuel (stepped s config step) config step step_limit)
          as [[[] s1 | s1 | |]|]; try exact I; try exact IH. reflexivity.
      * rewrite procedure_throws by assumption. exact Hlen.
Qed.

(** X7.  How a call can end on a robot with its four trailing servos, whatever
    the vector, the step and the limit: never in undefined behaviour; by the
    exception of [at] only for a vector shorter than three genes for every
    joint group; by [exit] only when the run is not headless - and then at
    once, before any step, if the window is closed and the clock is below the
    limit at entry. *)
Theorem run_conf_ends (fuel : nat) (s : Simulation) (config : list num) (step : num)
    (step_limit : Z) :
  4 <= servos_size (env s) ->
  run_conf fuel s config step step_limit <> Some Undefined /\
  (forall s', run_conf fuel s config step step_limit = Some (Throws s') ->
     length config < 3 * joint_groups s) /\
  (run_conf fuel s config step step_limit = Some Exits -> headless s = false) /\
  (headless s = false -> v_done (env s) = true ->
   ltb (x s) (of_int clock_format step_limit) = true ->
   run_conf (S fuel) s config step step_limit = Some Exits).
Proof.
  intro Hs. pose proof (@stepping_ends config step step_limit fuel s Hs) as H.
  unfold run_conf.
  split; [|split; [|split]].
  - destruct (stepping fuel s config step step_limit) as [[[] s1 | s1 | |]|];
      try discriminate. contradiction.
  - intro s'.
    destruct (stepping fuel s config step step_limit) as [[[] s1 | s1 | |]|];
      try discriminate. intros _. exact H.
  - destruct (stepping fuel s config step step_limit) as [[[] s1 | s1 | |]|];
      try discriminate. intros _. exact H.
  - intros Hh Hd Hl. cbn [stepping]. now rewrite Hl, Hh, Hd.
Qed.

(** X8.  A vector too short for the robot never yields a fitness.  With the
    clock below the limit at entry, a call on a vector shorter than three
    genes for every joint group does not return, whatever the fuel; unless
    the viewer ends the process, it ends in its first iteration by the
    exception of [at], the clock advanced by one step and the servos of the
    groups whose genes are there set. *)
Theorem short_vector_gives_no_fitness (s : Simulation) (config : list num)
    (step : num) (step_limit : Z) :
  4 <= servos_size (env s) ->
  length config < 3 * joint_groups s ->
  ltb (x s) (of_int clock_format step_limit) = true ->
  (forall (fuel : nat) (f : num) (s' : Simulation),
     run_conf fuel s config step step_limit <> Some (Returns f s')) /\
  (headless s = true \/ v_done (env s) = false ->
   forall fuel : nat, exists s' : Simulation,
     run_conf (S fuel) s config step step_limit = Some (Throws s') /\
     x s' = add clock_format (x s) (cvt clock_format step) /\
     journal s' = journal s ++ calls (x s') config 0 (length config / 3)).
Proof.
  intros Hs Hlen Hl. unfold run_conf. split.
  - intros [|fuel] f s'; cbn [stepping]; rewrite Hl; [discriminate|].
    destruct (negb (headless s) && v_done (env s)); [discriminate|].
    rewrite procedure_throws by assumption. discriminate.
  - intros Hv fuel. cbn [stepping]. rewrite Hl.
    replace (negb (headless s) && v_done (env s)) with false
      by (destruct Hv as [-> | ->]; [reflexivity | now rewrite andb_false_r]).
    rewrite procedure_throws by assumption.
    eexists. split; [reflexivity|].
    rewrite emits_x, emits_journal. split; reflexivity.
Qed.

(** X9.  A second evaluation on the same object is stale.  Once a call has
    returned, any further call with the same limit - whatever its parameter
    vector, its step and the fuel - runs no iteration, reads nothing of its
    vector, and returns the fitness of the first call, the object
    untouched. *)
Theorem second_call_is_stale (fuel : nat) (s : Simulation) (config : list num)
    (step : num) (step_limit : Z) (f : num) (s' : Simulation) :
  run_conf fuel s config step step_limit = Some (Returns f s') ->
  forall (fuel' : nat) (config' : list num) (step' : num),
    run_conf fuel' s' config' step' step_limit = Some (Returns f s').
Proof.
  unfold run_conf.
  destruct (stepping fuel s config step step_limit) as [[[] s1 | s1 | |]|] eqn:E;
    try discriminate.
  intros [= <- <-] fuel' config' step'.
  apply stepping_left in E. now rewrite stepping_halt.
Qed.

(** X10.  What no call touches.  However a call ends - by return or by the
    exception of [at] - and on any robot, the object it leaves has the mode,
    the tilt, the obstacles and the number of servos it had, and every
    [set_angle] call recorded before the call is still there, in order:
    the journal has only grown. *)
Theorem run_conf_keeps_terrain (fuel : nat) (s : Simulation) (config : list num)
    (step : num) (step_limit : Z) (o : outcome num) (s' : Simulation) :
  run_conf fuel s config step step_limit = Some o ->
  left_behind o = Some s' ->
  headless s' = headless s /\ tilt s' = tilt s /\ boxes s' = boxes s /\
  servos_size (env s') = servos_size (env s) /\
  exists cs : list (Z * num), journal s' = journal s ++ cs.
Proof.
  unfold run_conf.
  destruct (stepping fuel s config step step_limit) as [[[] s1 | s1 | |]|] eqn:E;
    try discriminate; intros [= <-]; try discriminate; intros [= <-];
    apply (@stepping_follows config step step_limit fuel s _ s1 E); reflexivity.
Qed.

End Runs.

(** ** Calls in a row, the number of iterations, and the range of the phase *)

Section Through.

Context {A : Arith} {P : Platform A}.

(** A loop that ran [k] turns to a first limit runs the same [k] turns to a
    second limit, as long as the clock of each is below that limit too. *)
Lemma stepping_through (config : list num) (step : num) (limit1 limit2 : Z) :
  forall k s s1,
  exactly k s config step limit1 s1 ->
  (forall j, j < k ->
     ltb (clock_after j (x s) step) (of_int clock_format limit2) = true) ->
  (forall m, stepping (k + m) s config step limit2 = stepping m s1 config step limit2) /\
  (forall m, m < k -> stepping m s config step limit2 = None).
Proof.
  unfold clock_after.
  induction k as [|k IH]; intros s s1 [H Hmin] Hbelow.
  - cbn [stepping] in H.
    destruct (ltb (x s) (of_int clock_format limit1)); [discriminate|].
    injection H as <-. split; [reflexivity | intros m Hm; lia].
  - assert (E : ltb (x s) (of_int clock_format limit1) = true).
    { destruct (ltb (x s) (of_int clock_format limit1)) eqn:E; [reflexivity|].
      pose proof (stepping_halt 0 s config step limit1 E) as H0.
      rewrite (Hmin 0) in H0 by lia. discriminate. }
    assert (E2 : ltb (x s) (of_int clock_format limit2) = true)
      by (apply (Hbelow 0); lia).
    cbn [stepping] in H. rewrite E in H.
    destruct (negb (headless s) && v_done (env s)) eqn:Eq; [discriminate|].
    destruct (procedure s config step) as [[] s' | s' | |] eqn:Ep; try discriminate.
    destruct (@procedure_clock A P s config step s' (or_introl Ep)) as (Hx & _).
    destruct (IH s' s1) as (I1 & I2).
    + split; [exact H|]. intros m Hm.
      specialize (Hmin (S m) ltac:(lia)). cbn [stepping] in Hmin.
      now rewrite E, Eq, Ep in Hmin.
    + intros j Hj. rewrite Hx. apply (Hbelow (S j)). lia.
    + split.
      * intro m. cbn [Nat.add stepping]. rewrite E2, Eq, Ep. apply I1.
      * intros [|m] Hm; [now apply stepping_starved|].
        cbn [stepping]. rewrite E2, Eq, Ep. apply I2. lia.
Qed.

Lemma exactly_through (config : list num) (step : num) (limit1 limit2 : Z)
    (k1 k2 : nat) (s s1 s2 : Simulation) :
  exactly k1 s config step limit1 s1 ->
  exactly k2 s1 config step limit2 s2 ->
  (forall j, j < k1 ->
     ltb (clock_after j (x s) step) (of_int clock_format limit2) = true) ->
  exactly (k1 + k2) s config step limit2 s2.
Proof.
  intros E1 [E2 E2'] Hbelow.
  destruct (@stepping_through config step limit1 limit2 k1 s s1 E1 Hbelow) as (T1 & T2).
  split.
  - now rewrite T1.
  - intros m Hm. destruct (Nat.lt_ge_cases m k1) as [Hk | Hk]; [now apply T2|].
    replace m with (k1 + (m - k1)) by lia. rewrite T1. apply E2'. lia.
Qed.

End Through.

Lemma tanh_bounded (v : R) : (-1 <= Rtrigo_def.tanh v <= 1)%R.
Proof.
  unfold Rtrigo_def.tanh, sinh, cosh.
  pose proof (exp_pos v) as Hp. pose proof (exp_pos (- v)) as Hq.
  set (p := Rtrigo_def.exp v) in *. set (q := Rtrigo_def.exp (- v)) in *.
  replace ((p - q) / 2 / ((p + q) / 2))%R with ((p - q) / (p + q))%R by (field; lra).
  set (r := ((p - q) / (p + q))%R).
  assert (Hr : (r * (p + q) = p - q)%R) by (unfold r; field; lra).
  split; nra.
Qed.

Section ExactRuns.

Context {P : Platform Exact}.

(** X11.  Splitting an evaluation does not change it.  In exact arithmetic, and
    on any platform for which the clocks of the first call are below the
    second limit as well: a call that runs [k1] iterations to a limit,
    followed by a call that runs [k2] iterations to a limit not smaller, is
    one call to the second limit - it runs [k1 + k2] iterations and leaves the
    same object. *)
Theorem runs_compose :
  (forall (A : Arith) (Q : Platform A) (config : list num) (step : num)
          (limit1 limit2 : Z) (k1 k2 : nat) (s s1 s2 : Simulation),
     exactly k1 s config step limit1 s1 ->
     exactly k2 s1 config step limit2 s2 ->
     (forall j, j < k1 ->
        ltb (clock_after j (x s) step) (of_int clock_format limit2) = true) ->
     exactly (k1 + k2) s config step limit2 s2)
  /\
  (forall (Q : Platform Exact) (config : list (@num Exact)) (step : @num Exact)
          (limit1 limit2 : Z) (k1 k2 : nat) (s s1 s2 : @Simulation Exact Q),
     (limit1 <= limit2)%Z ->
     exactly k1 s config step limit1 s1 ->
     exactly k2 s1 config step limit2 s2 ->
     exactly (k1 + k2) s config step limit2 s2).
Proof.
  split.
  - intros A Q config step limit1 limit2 k1 k2 s s1 s2. apply exactly_through.
  - intros Q config step limit1 limit2 k1 k2 s s1 s2 Hl E1 E2.
    apply (@exactly_through Exact Q config step limit1 limit2 k1 k2 s s1 s2 E1 E2).
    intros j Hj. destruct (exactly_clock E1) as (_ & _ & H3).
    specialize (H3 j Hj). apply ExactR.ltb_true in H3. apply ExactR.ltb_true.
    apply IZR_le in Hl. cbn in *. lra.
Qed.

(** X12.  The number of iterations in exact arithmetic.  A call with a positive
    step that starts below its limit runs [k] iterations, [k] the least
    integer not below [(step_limit - x) / step], and leaves the clock at
    [x + k * step], which is at the limit or beyond it by less than one
    step - on any robot and for any vector that lets the call return. *)
Theorem exact_iteration_count (s s' : @Simulation Exact P) (config : list (@num Exact))
    (step : @num Exact) (step_limit : Z) (k : nat) :
  exactly k s config step step_limit s' ->
  (0 < step)%R -> (x s < IZR step_limit)%R ->
  ((IZR step_limit - x s) / step <= INR k < (IZR step_limit - x s) / step + 1)%R /\
  x s' = (x s + INR k * step)%R /\
  (IZR step_limit <= x s' < IZR step_limit + step)%R.
Proof.
  intros E Hstep Hx.
  destruct (exactly_clock E) as (H1 & H2 & H3).
  rewrite exact_clock_after in H1. apply ExactR.ltb_false in H2.
  change (@of_int Exact clock_format step_limit) with (IZR step_limit) in H2.
  destruct k as [|k].
  - cbn in H1. lra.
  - specialize (H3 k ltac:(lia)). rewrite exact_clock_after in H3.
    apply ExactR.ltb_true in H3.
    change (@of_int Exact clock_format step_limit) with (IZR step_limit) in H3.
    rewrite S_INR in *.
    set (d := ((IZR step_limit - x s) / step)%R).
    assert (Hd : (d * step = IZR step_limit - x s)%R) by (unfold d; field; lra).
    split; [split; nra|]. split; [exact H1 | lra].
Qed.

(** X13.  The range of the phase in exact arithmetic.  With genes between 0 and
    1, and a [tanh] whose values lie between -1 and 1, the phase emitted for
    a group is within 60 degrees of zero, and within 108 degrees for the
    groups 6 and 9; and it is never further from the group's bias
    [40 * paramB - 20] than the amplitude [40 * paramA], times 1.8 for these
    two groups. *)
Theorem exact_phase_range (clock pa pt pb lastg : @num Exact) (i : Z) :
  (forall v : @num Exact, (-1 <= tanh v <= 1)%R) ->
  (0 <= pa <= 1)%R -> (0 <= pb <= 1)%R ->
  let e := emitted_phase clock i pa pt pb lastg in
  let b := (40 * pb - 20)%R in
  (-108 <= e <= 108)%R /\
  (i <> 6%Z -> i <> 9%Z -> (-60 <= e <= 60)%R /\ (b - 40 * pa <= e <= b + 40 * pa)%R) /\
  (i = 6%Z \/ i = 9%Z ->
   (18 / 10 * (b - 40 * pa) <= e <= 18 / 10 * (b + 40 * pa))%R).
Proof.
  intros Ht Ha Hb e b. unfold e, emitted_phase, oscillation.
  match goal with |- context [tanh ?v] =>
    pose proof (Ht v) as Hv; set (t := tanh v) in * end.
  assert (Hamp : (0 <= amplitude pa <= 40 * pa)%R /\ (0 <= amplitude pa <= 40)%R).
  { unfold amplitude. cbn.
    destruct (ExactR.ltb (pa * (40 / 1)) (5 / 1)); lra. }
  set (a := amplitude pa) in *. unfold b. clear e b.
  unfold amplify.
  destruct ((i =? 6) || (i =? 9))%Z eqn:E; cbn.
  - split; [nra|]. split.
    + intros H6 H9. apply Z.eqb_neq in H6, H9. rewrite H6, H9 in E. discriminate.
    + intros _. nra.
  - split; [nra|]. split.
    + intros _ _. nra.
    + intros [-> | ->]; discriminate.
Qed.

End ExactRuns.

(** ** A whole run, and the obstacles in exact arithmetic *)

Section WholeRun.

Context {A : Arith} {P : Platform A}.

Lemma exactly_turns (config : list num) (step : num) (step_limit : Z) :
  forall k s s',
  4 <= servos_size (env s) ->
  3 * joint_groups s <= length config ->
  exactly k s config step step_limit s' ->
  s' = turns k s config step.
Proof.
  induction k as [|k IH]; intros s s' Hs Hlen [H Hmin].
  - cbn [stepping] in H.
    destruct (ltb (x s) (of_int clock_format step_limit)); [discriminate|].
    now injection H as <-.
  - assert (E : ltb (x s) (of_int clock_format step_limit) = true).
    { destruct (ltb (x s) (of_int clock_format step_limit)) eqn:E; [reflexivity|].
      pose proof (stepping_halt 0 s config step step_limit E) as H0.
      rewrite (Hmin 0) in H0 by lia. discriminate. }
    cbn [stepping] in H. rewrite E in H.
    destruct (negb (headless s) && v_done (env s)) eqn:Eq; [discriminate|].
    rewrite procedure_returns in H by assumption.
    cbn [turns]. apply IH.
    + now rewrite stepped_size.
    + unfold joint_groups in *. now rewrite stepped_size.
    + split; [exact H|]. intros m Hm.
      specialize (Hmin (S m) ltac:(lia)). cbn [stepping] in Hmin.
      rewrite E, Eq, procedure_returns in Hmin by assumption. exact Hmin.
Qed.

Lemma turns_journal (config : list num) (step : num) : forall k s,
  length (journal (turns k s config step))
  = length (journal s) + k * (joint_groups s + (joint_groups s - 2)).
Proof.
  induction k as [|k IH]; intro s; [cbn; lia|].
  cbn [turns]. rewrite IH, stepped_journal, length_app, length_calls.
  unfold joint_groups. rewrite stepped_size. lia.
Qed.

(** X14.  A run is its steps.  On a robot with its four trailing servos and a
    vector that holds the genes of every joint group, a call that runs [k]
    iterations - headless or not - leaves the object that [k] steps in a row
    leave: the clock [k] increments further, and [k] times the calls of one
    step more in the journal ([n] calls a step for [n <= 2] joint groups,
    [2n - 2] otherwise). *)
Theorem run_is_its_steps (k : nat) (s s' : Simulation) (config : list num)
    (step : num) (step_limit : Z) :
  4 <= servos_size (env s) ->
  3 * joint_groups s <= length config ->
  exactly k s config step step_limit s' ->
  s' = turns k s config step /\
  x s' = clock_after k (x s) step /\
  length (journal s')
  = length (journal s) + k * (joint_groups s + (joint_groups s - 2)).
Proof.
  intros Hs Hlen E.
  rewrite (@exactly_turns config step step_limit k s s' Hs Hlen E).
  split; [reflexivity|]. split; [apply turns_x | apply turns_journal].
Qed.

End WholeRun.

Section ExactTerrain.

Context {P : Platform Exact}.

Hypothesis uniform_real_range : forall (lo hi : @num Exact) (g : rng),
  (lo <= hi)%R -> (lo <= fst (uniform_real lo hi g) <= hi)%R.
Hypothesis exp_range : forall v : @num Exact, (v <= 0)%R -> (0 < exp v <= 1)%R.
Hypothesis pow_square : forall v : @num Exact, pow v 2%R = (v * v)%R.

Lemma exact_drawn (size : Z) (tlt : @num Exact) (g : rng) :
  (2 <= size)%Z ->
  let b := drawn size tlt g in
  (0 < height b <= IZR size / 1000)%R /\
  width b = (4 * height b)%R /\ depth b = (4 * height b)%R /\
  (- (8 / 10) <= fst (fst (center b)) <= 0)%R /\
  (- (4 / 10) <= snd (fst (center b)) <= 4 / 10)%R /\
  (snd (center b) - height b / 2 = - (tan tlt * fst (fst (center b))))%R.
Proof.
  intros Hsize b. unfold b, drawn, fix_, block, gauss, rsize, rlocation, xc, yc, spread.
  cbn.
  apply IZR_le in Hsize.
  match goal with |- context [uniform_real ?lo ?hi g] =>
    pose proof (@uniform_real_range lo hi g ltac:(lra)) as Ha;
    destruct (@uniform_real Exact P lo hi g) as [da g1] end.
  cbn [fst snd] in *.
  match goal with |- context [uniform_real ?lo ?hi g1] =>
    pose proof (@uniform_real_range lo hi g1 ltac:(lra)) as Hx;
    destruct (@uniform_real Exact P lo hi g1) as [dx g2] end.
  cbn [fst snd] in *.
  match goal with |- context [uniform_real ?lo ?hi g2] =>
    pose proof (@uniform_real_range lo hi g2 ltac:(lra)) as Hy;
    destruct (@uniform_real Exact P lo hi g2) as [dy g3] end.
  cbn [fst snd] in *.
  rewrite !pow_square.
  match goal with |- context [exp ?v] =>
    assert (Hv : (v <= 0)%R);
      [|pose proof (exp_range Hv) as He; generalize dependent (exp v); intros e He] end.
  { match goal with |- (- (?p / ?c + ?q / ?c) <= 0)%R =>
      assert (0 <= p)%R by nra; assert (0 <= q)%R by nra;
      assert (0 <= p / c)%R by (apply Rmult_le_pos; [assumption | lra]);
      assert (0 <= q / c)%R by (apply Rmult_le_pos; [assumption | lra]) end.
    lra. }
  repeat split; try lra; nra.
Qed.

(** X15.  The terrain in exact arithmetic.  When the generator draws within its
    range, [exp] is positive and at most 1 on the negative numbers, and
    [pow(v, 2)] is the square of [v], every obstacle of a simulation
    constructed with [size >= 2] has a height above zero and at most
    [size / 1000], a width and a depth of four times its height, its centre
    between -0.8 and 0 in the first coordinate and between -0.4 and 0.4 in the
    second, and stands on the tilted plane: its centre is half its height
    above [-tan(tilt)] times its first coordinate. *)
Theorem exact_obstacle_bounds (now : Z) (tlt : @num Exact) (count size : Z) (hl : bool) :
  (2 <= size)%Z ->
  Forall (fun b : Box =>
            (0 < height b <= IZR size / 1000)%R /\
            width b = (4 * height b)%R /\ depth b = (4 * height b)%R /\
            (- (8 / 10) <= fst (fst (center b)) <= 0)%R /\
            (- (4 / 10) <= snd (fst (center b)) <= 4 / 10)%R /\
            (snd (center b) - height b / 2 = - (tan tlt * fst (fst (center b))))%R)
    (boxes (construct now tlt count size hl)).
Proof.
  intro Hsize. unfold construct, add_blocks.
  match goal with |- context [Nat.iter ?n ?f ?sg] =>
    destruct (iter_add_block_boxes size n sg) as (Hb & _) end.
  unfold Nat.iter in *. cbn zeta. rewrite Hb. cbn [fst snd boxes tilt app].
  apply Forall_forall. intros b Hin. apply in_map_iff in Hin.
  destruct Hin as (k & <- & _). now apply exact_drawn.
Qed.

End ExactTerrain.

(** ** Values that are not numbers, in IEEE arithmetic *)

Section NotANumber.

Context {P : Platform IEEE}.

Lemma SFadd_nan_r (f : format) (v : spec_float) :
  SFadd (IEEE754.prec f) (IEEE754.emax f) v S754_nan = S754_nan.
Proof. destruct v; reflexivity. Qed.

Lemma SFltb_infinity (v : spec_float) : SFltb (S754_infinity false) v = false.
Proof. destruct v as [[] | [] | | []]; reflexivity. Qed.

Lemma nan_phase (clock pa pt pb lastg : @num IEEE) (i : Z) :
  pa = S754_nan \/ pb = S754_nan ->
  radians (emitted_phase clock i pa pt pb lastg) = S754_nan.
Proof.
  intro H. unfold radians, emitted_phase.
  assert (Ho : oscillation clock (amplitude pa) (fmul pt (lit float 1 1))
                 (fsub (fmul pb (lit float 40 1)) (lit float 20 1))
                 (fmul lastg (lit float 2 1)) (of_int float 4) = S754_nan).
  { unfold oscillation. destruct H as [-> | ->].
    - reflexivity.
    - apply (SFadd_nan_r double). }
  rewrite Ho. unfold amplify. destruct ((i =? 6) || (i =? 9))%Z; reflexivity.
Qed.

(** After its increment by a step that is a NaN or plus infinity, a clock
    that was below a limit is no longer below any. *)
Lemma clock_leaves (cf : format) (clock step limit limit' : @num IEEE) :
  step = S754_nan \/ step = S754_infinity false ->
  ltb clock limit = true ->
  ltb (add cf clock (cvt cf step)) limit' = false.
Proof.
  intros [-> | ->] Hl; cbn [cvt IEEE IEEE754.cvt add].
  - now rewrite SFadd_nan_r.
  - destruct clock as [s | [] | | s m e]; cbn; try apply SFltb_infinity; reflexivity.
Qed.

(** X16.  A gene that is not a number is not caught by the threshold on the
    amplitude: [NaN < 5.0f] is false.  In IEEE arithmetic, whatever cmath
    returns, on a robot with its four trailing servos and for a vector that
    holds the genes of every joint group: if the amplitude gene or the bias
    gene of a joint group [k] is a NaN, the step returns, and it has set the
    servo [k] - and its mirror [k + 4] for [k > 1] - to an angle that is a
    NaN. *)
Theorem nan_gene_reaches_the_servo (s : @Simulation IEEE P) (data : list (@num IEEE))
    (step : @num IEEE) (k : nat) :
  4 <= servos_size (env s) ->
  3 * joint_groups s <= length data ->
  k < joint_groups s ->
  nth (3 * k) data (lit float 0 1) = S754_nan \/
  nth (3 * k + 2) data (lit float 0 1) = S754_nan ->
  exists (s' : @Simulation IEEE P) (cs : list (Z * @num IEEE)),
    procedure s data step = Returns tt s' /\
    journal s' = journal s ++ cs /\
    In (Z.of_nat k, S754_nan) cs /\
    (1 < k -> In ((Z.of_nat k + 4)%Z, S754_nan) cs).
Proof.
  intros Hs Hlen Hk Hnan. exists (stepped s data step). eexists.
  split; [now apply procedure_returns|].
  split; [apply stepped_journal|].
  set (clock := add clock_format (x s) (cvt clock_format step)).
  assert (Ha : group_angle clock data k = S754_nan)
    by (unfold group_angle; now apply nan_phase).
  split.
  - unfold calls. apply in_flat_map. exists k. split; [apply in_seq; lia|].
    unfold group_calls. rewrite Ha.
    destruct (Z.of_nat k <=? 1)%Z; left; reflexivity.
  - intro H1. unfold calls. apply in_flat_map. exists k. split; [apply in_seq; lia|].
    unfold group_calls. rewrite Ha.
    replace (Z.of_nat k <=? 1)%Z with false by (symmetry; apply Z.leb_gt; lia).
    right. left. reflexivity.
Qed.

(** X17.  A step that is not a number.  In IEEE arithmetic, on a robot with
    its four trailing servos, for a vector that holds the genes of every joint
    group, and when the run is headless or the viewer's window is open: a
    call whose step is a NaN or plus infinity, entered with the clock below
    the limit, runs exactly one iteration and returns: the clock has become
    a NaN or infinite, and is below no limit any more - so no later call on
    the object runs an iteration either, whatever its vector, its limit and
    its step. *)
Theorem step_not_a_number (s : @Simulation IEEE P) (config : list (@num IEEE))
    (step : @num IEEE) (step_limit : Z) :
  4 <= servos_size (env s) ->
  3 * joint_groups s <= length config ->
  headless s = true \/ v_done (env s) = false ->
  ltb (x s) (of_int clock_format step_limit) = true ->
  step = S754_nan \/ step = S754_infinity false ->
  let s' := stepped s config step in
  exactly 1 s config step step_limit s' /\
  run_conf 1 s config step step_limit = Some (Returns (fitness s') s') /\
  forall (fuel : nat) (config' : list (@num IEEE)) (step' : @num IEEE) (limit' : Z),
    run_conf fuel s' config' step' limit' = Some (Returns (fitness s') s').
Proof.
  intros Hs Hlen Hv Hl Hstep s'.
  assert (Hx : forall limit' : Z, ltb (x s') (of_int clock_format limit') = false).
  { intro limit'. unfold s'. rewrite stepped_x.
    exact (@clock_leaves clock_format (x s) step _ _ Hstep Hl). }
  assert (H1 : stepping 1 s config step step_limit = Some (Returns tt s')).
  { cbn [stepping]. rewrite Hl.
    replace (negb (headless s) && v_done (env s)) with false
      by (destruct Hv as [-> | ->]; [reflexivity | now rewrite andb_false_r]).
    rewrite procedure_returns by assumption. fold s'. now rewrite Hx. }
  split; [split; [exact H1|]|split].
  - intros m Hm. replace m with 0 by lia. now apply stepping_starved.
  - unfold run_conf. now rewrite H1.
  - intros fuel config' step' limit'. unfold run_conf.
    now rewrite stepping_halt by apply Hx.
Qed.

End NotANumber.

(** ** On the benches again *)

(** cmath on the reals keeps the contracts assumed of it. *)
Lemma real_exp_range (v : R) : (v <= 0)%R -> (0 < Rtrigo_def.exp v <= 1)%R.
Proof.
  intro Hv. split; [apply exp_pos|].
  destruct Hv as [Hv | ->]; [|rewrite exp_0; lra].
  left. rewrite <- exp_0. now apply exp_increasing.
Qed.

Lemma real_pow_square (v : R) : Lab.real_pow v 2 = (v * v)%R.
Proof.
  unfold Lab.real_pow.
  assert (Hup : up 2 = 3%Z) by (symmetry; apply tech_up; lra).
  rewrite Hup. change (3 - 1)%Z with 2%Z.
  destruct (Req_dec_T 2 2) as [_ | Hn]; [|lra].
  unfold powerRZ. change (Pos.to_nat 2) with 2. cbn [Rpow_def.pow]. lra.
Qed.

(** *** The robot of fourteen servos *)
Module Steps14.

#[local] Existing Instance Lab.robot14.

Lemma quarter_run :
  exists s1 s2 : @Simulation Exact Lab.robot14,
    exactly 4 Lab.sim14 Lab.genes31 (lit float 1 4) 1 s1 /\
    exactly 4 s1 Lab.genes31 (lit float 1 4) 2 s2 /\
    run_conf 4 Lab.sim14 Lab.genes31 (lit float 1 4) 1 = Some (Returns (fitness s1) s1).
Proof.
  destruct Robot14.ready as (Hh & Hs & Hlen & Hx).
  destruct (@quarter_runs Exact Lab.robot14 Lab.sim14 Lab.genes31
              (quarters_Exact _) Hh Hs Hlen Hx) as (E1 & _ & E2 & _).
  eexists. eexists. split; [exact E1|]. split; [exact E2|].
  unfold run_conf. now rewrite (proj1 E1).
Qed.

(** One step on a vector of 31 genes, and on an empty one, stays within
    the fourteen servos. *)
Lemma stays_in_range_witness :
  4 <= servos_size (env Lab.sim14) /\
  exists (s' : @Simulation Exact Lab.robot14) (cs : list (Z * @num Exact)),
    (procedure Lab.sim14 Lab.genes31 Lab.tick = Returns tt s' \/
     procedure Lab.sim14 Lab.genes31 Lab.tick = Throws s') /\
    journal s' = journal Lab.sim14 ++ cs /\
    Forall (fun c => (0 <= fst c < 14)%Z) cs.
Proof.
  split; [apply Robot14.well_formed|].
  exact (@procedure_stays_in_range Exact Lab.robot14 Lab.sim14 Lab.genes31 Lab.tick
           (proj1 Robot14.well_formed)).
Defined.

(** Ten joint groups: eighteen calls a step, and some servo is set twice. *)
Lemma calls_of_a_step_witness :
  4 <= servos_size (env Lab.sim14) /\
  3 * joint_groups Lab.sim14 <= length Lab.genes31 /\
  exists (s' : @Simulation Exact Lab.robot14) (cs : list (Z * @num Exact)),
    procedure Lab.sim14 Lab.genes31 Lab.tick = Returns tt s' /\
    length cs = 18 /\ ~ NoDup (map fst cs).
Proof.
  split; [apply Robot14.well_formed|]. split; [apply Robot14.well_formed|].
  destruct (@calls_of_a_step Exact Lab.robot14 Lab.sim14 Lab.genes31 Lab.tick
              (proj1 Robot14.well_formed) (proj2 Robot14.well_formed))
    as (s' & cs & H1 & _ & H3 & H4).
  exists s', cs. split; [exact H1|]. split; [exact H3|].
  intro N. apply H4 in N. cbn in N. lia.
Defined.

(** Servo 6 is set by group 2 and left with the angle of group 6. *)
Lemma latest_call_witness :
  4 <= servos_size (env Lab.sim14) /\
  3 * joint_groups Lab.sim14 <= length Lab.genes31 /\
  exists (s' : @Simulation Exact Lab.robot14) (cs : list (Z * @num Exact)),
    procedure Lab.sim14 Lab.genes31 Lab.tick = Returns tt s' /\
    In (6%Z, group_angle (x s') Lab.genes31 2) cs /\
    last_call 6 cs = Some (group_angle (x s') Lab.genes31 6).
Proof.
  split; [apply Robot14.well_formed|]. split; [apply Robot14.well_formed|].
  destruct (@latest_call_on_a_servo Exact Lab.robot14 Lab.sim14 Lab.genes31 Lab.tick
              (proj1 Robot14.well_formed) (proj2 Robot14.well_formed))
    as (s' & cs & H1 & _ & H3 & H4 & _).
  exists s', cs. split; [exact H1|]. split.
  - apply (H4 6). cbn. lia.
  - apply (H3 6). cbn. lia.
Defined.

(** After a run to the limit 1, a call on three genes - too few for this
    robot - returns the fitness of that run. *)
Lemma second_call_witness :
  exists (f : @num Exact) (s' : @Simulation Exact Lab.robot14),
    run_conf 4 Lab.sim14 Lab.genes31 (lit float 1 4) 1 = Some (Returns f s') /\
    run_conf 0 s' Lab.genes3 Lab.tick 1 = Some (Returns f s').
Proof.
  destruct quarter_run as (s1 & _ & _ & _ & R).
  exists (fitness s1), s1. split; [exact R|].
  exact (@second_call_is_stale Exact Lab.robot14 4 Lab.sim14 Lab.genes31 (lit float 1 4) 1
           (fitness s1) s1 R 0 Lab.genes3 Lab.tick).
Defined.

(** The run of four quarter steps leaves the mode and the obstacles. *)
Lemma keeps_terrain_witness :
  exists (f : @num Exact) (s' : @Simulation Exact Lab.robot14),
    run_conf 4 Lab.sim14 Lab.genes31 (lit float 1 4) 1 = Some (Returns f s') /\
    headless s' = headless Lab.sim14 /\ boxes s' = boxes Lab.sim14.
Proof.
  destruct quarter_run as (s1 & _ & _ & _ & R).
  exists (fitness s1), s1. split; [exact R|].
  destruct (@run_conf_keeps_terrain Exact Lab.robot14 4 Lab.sim14 Lab.genes31
              (lit float 1 4) 1 _ s1 R eq_refl) as (H1 & _ & H3 & _).
  split; [exact H1 | exact H3].
Defined.

(** Four quarter steps to the limit 1 and four more to the limit 2 are the
    eight of one call with the limit 2. *)
Lemma runs_compose_witness :
  (1 <= 2)%Z /\
  exists s1 s2 : @Simulation Exact Lab.robot14,
    exactly 4 Lab.sim14 Lab.genes31 (lit float 1 4) 1 s1 /\
    exactly 4 s1 Lab.genes31 (lit float 1 4) 2 s2 /\
    exactly 8 Lab.sim14 Lab.genes31 (lit float 1 4) 2 s2.
Proof.
  split; [lia|].
  destruct quarter_run as (s1 & s2 & E1 & E2 & _).
  exists s1, s2. split; [exact E1|]. split; [exact E2|].
  exact (proj2 runs_compose Lab.robot14 Lab.genes31 (lit float 1 4) 1%Z 2%Z 4 4
           Lab.sim14 s1 s2 ltac:(lia) E1 E2).
Defined.

(** (1 - 0) / 0.25 = 4 iterations. *)
Lemma iteration_count_witness :
  (0 < lit float 1 4)%R /\ (x Lab.sim14 < IZR 1)%R /\
  exists s1 : @Simulation Exact Lab.robot14,
    exactly 4 Lab.sim14 Lab.genes31 (lit float 1 4) 1 s1 /\
    ((IZR 1 - x Lab.sim14) / lit float 1 4 <= INR 4)%R /\
    x s1 = (x Lab.sim14 + INR 4 * lit float 1 4)%R.
Proof.
  assert (Hq : (0 < @lit Exact float 1 4)%R) by (cbn; lra).
  assert (Hx : (x Lab.sim14 < IZR 1)%R).
  { destruct Robot14.ready as (_ & _ & _ & ->). cbn. lra. }
  split; [exact Hq|]. split; [exact Hx|].
  destruct quarter_run as (s1 & _ & E1 & _ & _).
  exists s1. split; [exact E1|].
  destruct (@exact_iteration_count Lab.robot14 Lab.sim14 s1 Lab.genes31 (lit float 1 4) 1 4
              E1 Hq Hx) as ((H1 & _) & H2 & _).
  split; [exact H1 | exact H2].
Defined.

(** Genes of one half give a phase within sixty degrees. *)
Lemma phase_range_witness :
  (forall v : @num Exact, (-1 <= tanh v <= 1)%R) /\
  (0 <= 1 / 2 <= 1)%R /\
  (-60 <= emitted_phase Lab.tick 0 (1 / 2)%R (1 / 2)%R (1 / 2)%R (1 / 2)%R <= 60)%R.
Proof.
  assert (Ht : forall v : @num Exact, (-1 <= tanh v <= 1)%R) by exact tanh_bounded.
  assert (Hg : (0 <= 1 / 2 <= 1)%R) by lra.
  split; [exact Ht|]. split; [exact Hg|].
  destruct (@exact_phase_range Lab.robot14 Lab.tick (1 / 2)%R (1 / 2)%R (1 / 2)%R
              (1 / 2)%R 0 Ht Hg Hg) as (_ & H & _).
  apply H; discriminate.
Defined.

(** Two obstacles of a size up to six millimetres. *)
Lemma obstacle_bounds_witness :
  (2 <= 6)%Z /\
  Forall (fun b : @Box Exact => (0 < height b <= 6 / 1000)%R /\
                                (- (8 / 10) <= fst (fst (center b)) <= 0)%R)
    (boxes (@construct Exact Lab.robot14 0 Lab.zero 2 6 true)).
Proof.
  split; [lia|].
  assert (Hu : forall (lo hi : @num Exact) (g : rng),
            (lo <= hi)%R -> (lo <= fst (uniform_real lo hi g) <= hi)%R)
    by (intros lo hi g H; cbn; lra).
  pose proof (@exact_obstacle_bounds Lab.robot14 Hu real_exp_range real_pow_square
                0 Lab.zero 2 6 true ltac:(lia)) as H.
  eapply Forall_impl; [|exact H].
  intros b (H1 & _ & _ & H4 & _). split; assumption.
Defined.

(** Four steps, eighteen calls each. *)
Lemma run_is_its_steps_witness :
  4 <= servos_size (env Lab.sim14) /\
  3 * joint_groups Lab.sim14 <= length Lab.genes31 /\
  exists s1 : @Simulation Exact Lab.robot14,
    exactly 4 Lab.sim14 Lab.genes31 (lit float 1 4) 1 s1 /\
    length (journal s1) = 72.
Proof.
  split; [apply Robot14.well_formed|]. split; [apply Robot14.well_formed|].
  destruct quarter_run as (s1 & _ & E1 & _ & _).
  exists s1. split; [exact E1|].
  destruct (@run_is_its_steps Exact Lab.robot14 4 Lab.sim14 s1 Lab.genes31 (lit float 1 4) 1
              (proj1 Robot14.well_formed) (proj2 Robot14.well_formed) E1) as (_ & _ & H).
  exact H.
Defined.

End Steps14.

(** *** The robot of five servos *)
Module Steps5.

#[local] Existing Instance Lab.robot5.

(** The empty vector: the call throws in its first iteration. *)
Lemma short_vector_witness :
  4 <= servos_size (env Lab.sim5) /\
  length (@nil (@num Exact)) < 3 * joint_groups Lab.sim5 /\
  ltb (x Lab.sim5) (of_int clock_format 1) = true /\
  exists s' : @Simulation Exact Lab.robot5,
    run_conf 1 Lab.sim5 (@nil (@num Exact)) Lab.tick 1 = Some (Throws s') /\
    x s' = add clock_format (x Lab.sim5) (cvt clock_format Lab.tick).
Proof.
  assert (Hs : 4 <= servos_size (env Lab.sim5)) by (cbn; lia).
  assert (Hlen : length (@nil (@num Exact)) < 3 * joint_groups Lab.sim5) by (cbn; lia).
  assert (Hl : ltb (x Lab.sim5) (of_int clock_format 1) = true).
  { destruct (@construct_fresh Exact Lab.robot5 0 Lab.zero 0 6 true) as (_ & _ & Hx & _).
    fold Lab.sim5 in Hx. rewrite Hx. apply ExactR.ltb_true. cbn. lra. }
  split; [exact Hs|]. split; [exact Hlen|]. split; [exact Hl|].
  destruct (proj2 (@short_vector_gives_no_fitness Exact Lab.robot5 Lab.sim5 nil Lab.tick 1
                     Hs Hlen Hl) (or_introl eq_refl) 0) as (s' & H1 & H2 & _).
  exists s'. split; [exact H1 | exact H2].
Defined.

End Steps5.

(** *** The robot of three servos *)
Module Steps3.

#[local] Existing Instance Lab.robot3.

(** Nine genes on three servos: the first step is undefined behaviour. *)
Lemma too_few_servos_witness :
  servos_size (env Lab.sim3) < 4 /\
  9 <= length Lab.genes9 /\
  procedure Lab.sim3 Lab.genes9 Lab.tick = Undefined.
Proof.
  assert (Hs : servos_size (env Lab.sim3) < 4) by (cbn; lia).
  assert (Hlen : 9 <= length Lab.genes9) by (cbn; lia).
  split; [exact Hs|]. split; [exact Hlen|].
  exact (proj2 (@too_few_servos Exact Lab.robot3 Lab.sim3 Lab.genes9 Lab.tick Hs) Hlen).
Defined.

End Steps3.

(** *** The robot of fourteen servos behind a closed window *)
Module Closed14.

#[local] Existing Instance Lab.closed14.

(** The viewer reports its window closed: the first call ends the process
    before any step. *)
Lemma run_conf_ends_witness :
  4 <= servos_size (env Lab.sim_closed) /\
  headless Lab.sim_closed = false /\
  v_done (env Lab.sim_closed) = true /\
  ltb (x Lab.sim_closed) (of_int clock_format 1) = true /\
  run_conf 1 Lab.sim_closed Lab.genes31 Lab.tick 1 = Some Exits /\
  run_conf 0 Lab.sim_closed Lab.genes31 Lab.tick 1 <> Some Undefined.
Proof.
  destruct (@construct_fresh Exact Lab.closed14 0 Lab.zero 2 6 false) as (Hh & _ & Hx & _).
  fold Lab.sim_closed in Hh, Hx.
  assert (Hs : 4 <= servos_size (env Lab.sim_closed)) by (cbn; lia).
  assert (Hd : v_done (env Lab.sim_closed) = true) by reflexivity.
  assert (Hl : ltb (x Lab.sim_closed) (of_int clock_format 1) = true).
  { rewrite Hx. apply ExactR.ltb_true. cbn. lra. }
  split; [exact Hs|]. split; [exact Hh|]. split; [exact Hd|]. split; [exact Hl|].
  destruct (@run_conf_ends Exact Lab.closed14 0 Lab.sim_closed Lab.genes31 Lab.tick 1 Hs)
    as (H1 & _ & _ & H4).
  split; [exact (H4 Hh Hd Hl) | exact H1].
Defined.

End Closed14.

(** *** The robots of the rig, in IEEE arithmetic *)
Module Steps754.

(** The first gene is a NaN: servo 0 is set to a NaN. *)
Lemma nan_gene_witness :
  4 <= servos_size (env Rig.sim5) /\
  3 * joint_groups Rig.sim5 <= length Rig.nan_genes /\
  0 < joint_groups Rig.sim5 /\
  nth (3 * 0) Rig.nan_genes (lit float 0 1) = S754_nan /\
  exists (s' : @Simulation IEEE Rig.robot5) (cs : list (Z * @num IEEE)),
    procedure Rig.sim5 Rig.nan_genes Rig.half = Returns tt s' /\
    In (0%Z, S754_nan) cs.
Proof.
  assert (Hs : 4 <= @servos_size IEEE Rig.robot5 (env Rig.sim5)) by (cbn; lia).
  assert (Hlen : 3 * @joint_groups IEEE Rig.robot5 Rig.sim5 <= length Rig.nan_genes)
    by (cbn; lia).
  assert (Hk : 0 < @joint_groups IEEE Rig.robot5 Rig.sim5) by (cbn; lia).
  assert (Hn : nth (3 * 0) Rig.nan_genes (@lit IEEE float 0 1) = S754_nan) by reflexivity.
  split; [exact Hs|]. split; [exact Hlen|]. split; [exact Hk|]. split; [exact Hn|].
  destruct (@nan_gene_reaches_the_servo Rig.robot5 Rig.sim5 Rig.nan_genes Rig.half 0
              Hs Hlen Hk (or_introl Hn)) as (s' & cs & H1 & _ & H3 & _).
  exists s', cs. split; [exact H1 | exact H3].
Defined.

(** A step of plus infinity: one iteration. *)
Lemma step_not_a_number_witness :
  4 <= servos_size (env (Rig.sim float)) /\
  3 * joint_groups (Rig.sim float) <= length Rig.gene /\
  headless (Rig.sim float) = true /\
  ltb (x (Rig.sim float)) (@of_int IEEE float 1) = true /\
  exists s' : @Simulation IEEE (Rig.robot4 float),
    @exactly IEEE (Rig.robot4 float) 1 (Rig.sim float) Rig.gene (S754_infinity false) 1 s'.
Proof.
  destruct (@construct_fresh IEEE (Rig.robot4 float) 0 (S754_zero false) 0 6 true)
    as (Hh & _ & Hx & _).
  fold (Rig.sim float) in Hh, Hx.
  assert (Hs : 4 <= @servos_size IEEE (Rig.robot4 float) (env (Rig.sim float)))
    by (cbn; lia).
  assert (Hlen : 3 * @joint_groups IEEE (Rig.robot4 float) (Rig.sim float)
                 <= length Rig.gene) by (cbn; lia).
  assert (Hl : ltb (x (Rig.sim float)) (@of_int IEEE float 1) = true)
    by (rewrite Hx; vm_compute; reflexivity).
  split; [exact Hs|]. split; [exact Hlen|]. split; [exact Hh|]. split; [exact Hl|].
  eexists.
  exact (proj1 (@step_not_a_number (Rig.robot4 float) (Rig.sim float) Rig.gene
                  (S754_infinity false) 1 Hs Hlen (or_introl Hh) Hl
                  (or_intror eq_refl))).
Defined.

End Steps754.
